(** * FunctionGenerator: front-panel control logic of the AD9833 waveform generator

    A shallow embedding of the Arduino sketches of the repository and the
    properties of their navigation state machine, frequency regulation,
    output control and persisted settings record.

    Two revisions of the sketch are embedded:
    - [Part000] is the revision with the frequency-step editor, the debounced
      ("running") frequency update and the EEPROM recovery path
      (src/unnamed/part_000);
    - [Part001] is the revision with per-channel waveforms, whose rotation
      handling lives in one [encRotate] function (src/unnamed/part_001).
    The checksum [crc8block] is the same in both.  The earliest revision
    (src/FunctionGenerator.ino) has neither the regulation nor the
    persistence code and is not embedded.

    Target conventions (Arduino AVR): [byte], [bool] and the enums are 8 bits,
    [int] is 16 bits, [long] is 32 bits, structs are packed and little-endian.
    Calls on the display ([lcd.*]) do not touch any program variable and leave
    no trace in the model; calls on the signal generator are recorded in order. *)

From Stdlib Require Import ZArith List Bool Lia QArith.
Import ListNotations.
Local Open Scope Z_scope.

(* ================================================================== *)
(** * Part I: definitions *)
(* ================================================================== *)

(** ** Machine integers of the AVR target *)

Module AVR.

Definition wrap (width : Z) (z : Z) : Z := z mod 2 ^ width.

(** Conversion to [byte], [unsigned int] and [unsigned long]. *)
Definition u8 : Z -> Z := wrap 8.
Definition u16 : Z -> Z := wrap 16.
Definition u32 : Z -> Z := wrap 32.

(** Conversion to [long] (two's complement, as avr-gcc does). *)
Definition s32 (z : Z) : Z :=
  let u := u32 z in if u <? 2 ^ 31 then u else u - 2 ^ 32.

Definition is_u8 (z : Z) : Prop := 0 <= z < 256.
Definition is_u32 (z : Z) : Prop := 0 <= z < 2 ^ 32.

(** [n] applications of a loop body. *)
Fixpoint repeat_body {A : Type} (n : nat) (body : A -> A) (a : A) : A :=
  match n with
  | O => a
  | S n' => repeat_body n' body (body a)
  end.

End AVR.

Import AVR.

(** ** The collaborators *)

(** [RotaryEncoder::Direction] *)
Inductive Direction : Type := NOROTATION | CLOCKWISE | COUNTERCLOCKWISE.

(** The three gestures of [OneButton] the sketch subscribes to. *)
Inductive ButtonEvent : Type := Click | DoubleClick | LongPressStart.

(** [MD_AD9833::channel_t] and [MD_AD9833::mode_t] *)
Inductive channel_t : Type := CHAN_0 | CHAN_1.
Inductive mode_t : Type :=
  MODE_OFF | MODE_SINE | MODE_SQUARE1 | MODE_SQUARE2 | MODE_TRIANGLE.

(** Commands received by the signal generator. *)
Inductive SigGenCall : Type :=
| begin
| setFrequency (chan : channel_t) (freq : Z)
| setMode (mode : mode_t)
| setActiveFrequency (chan : channel_t).

Definition is_setFrequency (c : SigGenCall) : bool :=
  match c with setFrequency _ _ => true | _ => false end.

(** Number of [setFrequency] commands in a trace. *)
Definition count_setFrequency (tr : list SigGenCall) : nat :=
  length (filter is_setFrequency tr).

(** The math library of the target, used by the step editor.  A [double]
    result is a rational; its accuracy is not fixed by the sketch. *)
Class Libm : Type := {
  log10 : Z -> Q;
  pow : Z -> Z -> Q
}.

(** Conversion of a [double] to an integer type truncates toward zero. *)
Definition truncate (x : Q) : Z := Z.quot (Qnum x) (Z.pos (Qden x)).
Definition double_to_u16 (x : Q) : Z := u16 (truncate x).
Definition double_to_u32 (x : Q) : Z := u32 (truncate x).

(** [round]: to nearest, halves away from zero. *)
Definition round (x : Q) : Z :=
  if Qle_bool 0 x then truncate (x + (1 # 2)) else truncate (x - (1 # 2)).

(** An exact math library: base-ten logarithm of the powers of ten (the
    number of decimal digits less one elsewhere) and integer powers. *)
Fixpoint ilog10_fuel (fuel : nat) (z : Z) : Z :=
  match fuel with
  | O => 0
  | S fuel' => if z <? 10 then 0 else 1 + ilog10_fuel fuel' (z / 10)
  end.

Definition exact_log10 (z : Z) : Q := inject_Z (ilog10_fuel 40 z).
Definition exact_pow (b e : Z) : Q := inject_Z (b ^ e).

Definition exact_libm : Libm := {| log10 := exact_log10; pow := exact_pow |}.

(** A math library whose [log10] at 1000 is one unit in the last place of a
    32-bit float below 3 (that is, 3 - 2^-22) and exact elsewhere. *)
Definition ulp_low_log10 (z : Z) : Q :=
  if z =? 1000 then 12582911 # 4194304 else exact_log10 z.

Definition ulp_low_libm : Libm := {| log10 := ulp_low_log10; pow := exact_pow |}.

(** ** The checksum *)

Module Crc8.

(** One round of the inner [for] loop:
    [crc = (crc & 0x80) ? (crc << 1) ^ 0x31 : crc << 1;] *)
Definition crc8_round (crc : Z) : Z :=
  if Z.land crc 0x80 =? 0
  then u8 (Z.shiftl crc 1)
  else u8 (Z.lxor (Z.shiftl crc 1) 0x31).

(** [while (len--) { crc ^= *pcBlock++; for (i = 0; i < 8; i++) ... }] *)
Fixpoint crc8block_while (pcBlock : list Z) (len : nat) (crc : Z) : Z :=
  match len, pcBlock with
  | S len', b :: rest =>
      crc8block_while rest len' (repeat_body 8 crc8_round (u8 (Z.lxor crc b)))
  | _, _ => crc
  end.

Definition crc8block (pcBlock : list Z) (len : nat) : Z :=
  crc8block_while pcBlock len 0xFF.

End Crc8.

(** The checksum as the specification words it: a shift register of eight
    bits, most significant bit first. *)
Module Crc8Reference.

Definition register : Type := list bool.

Definition bits_of_byte (b : Z) : register :=
  map (fun i => Z.testbit b (Z.of_nat i)) [7; 6; 5; 4; 3; 2; 1; 0]%nat.

Definition byte_of_bits (r : register) : Z :=
  fold_left (fun acc (bit : bool) => 2 * acc + (if bit then 1 else 0)) r 0.

Fixpoint xor_bits (a b : register) : register :=
  match a, b with
  | x :: a', y :: b' => xorb x y :: xor_bits a' b'
  | _, _ => []
  end.

Definition polynomial : register := bits_of_byte 0x31.
Definition initial_value : register := bits_of_byte 0xFF.

Definition top_bit (r : register) : bool := hd false r.
Definition shift_left (r : register) : register := tl r ++ [false].

(** Shift left once, XORing with the polynomial whenever the top bit was
    set before the shift. *)
Definition shift_step (r : register) : register :=
  if top_bit r then xor_bits (shift_left r) polynomial else shift_left r.

(** XOR the input byte into the running CRC, then shift left eight times. *)
Definition absorb (r : register) (b : Z) : register :=
  repeat_body 8 shift_step (xor_bits r (bits_of_byte b)).

(** No final XOR. *)
Definition checksum (bytes : list Z) : Z :=
  byte_of_bits (fold_left absorb bytes initial_value).

(** Equality test on registers. *)
Fixpoint register_eqb (a b : register) : bool :=
  match a, b with
  | [], [] => true
  | x :: a', y :: b' => Bool.eqb x y && register_eqb a' b'
  | _, _ => false
  end.

End Crc8Reference.

(** ** The sketch with the step editor (src/unnamed/part_000) *)

Module Part000.

(** [enum Waveform : byte] and [enum MenuItem : byte]: the sketch does
    arithmetic on both, so they are kept as their byte values. *)
Definition SIN : Z := 0.
Definition CLK : Z := 1.
Definition TRI : Z := 2.

Definition Function : Z := 0.
Definition Frequency : Z := 1.
Definition Phase : Z := 2.
Definition Version : Z := 3.

Inductive OutputStatus : Type := OFF | ON.
Inductive DisplayFrame : Type := HOME_PAGE | MENU | SETTING.

Definition maxFreq : Z := 1000000.
Definition maxFreqStep : Z := 100000.
Definition encFreqStep : Z := 1000.
Definition freqUpdateDelay : Z := 400.
Definition EEPROM_ADDRESS_SHIFT : Z := 0.

(** [channelFreqs[2] = {10000, 1000}] *)
Definition channelFreqs (i : nat) : Z :=
  match i with O => 10000 | _ => 1000 end.

(** [sizeof(menuItmStr) / sizeof(char * )] and
    [sizeof(waveformStr) / sizeof(char * )] *)
Definition menuItmStr_len : Z := 4.
Definition waveformStr_len : Z := 3.

(** [struct Settings] *)
Record Settings : Type := mkSettings {
  frequency_0 : Z;
  frequency_1 : Z;
  freqStep : Z;
  waveform : Z;
  channel : bool;
  checksum : Z
}.

(** [settings.frequency[c]] as an rvalue and as an lvalue. *)
Definition frequency (st : Settings) (c : bool) : Z :=
  if c then frequency_1 st else frequency_0 st.

Definition set_frequency (c : bool) (f : Z) (st : Settings) : Settings :=
  if c
  then mkSettings (frequency_0 st) f (freqStep st) (waveform st) (channel st) (checksum st)
  else mkSettings f (frequency_1 st) (freqStep st) (waveform st) (channel st) (checksum st).

Definition set_freqStep (v : Z) (st : Settings) : Settings :=
  mkSettings (frequency_0 st) (frequency_1 st) v (waveform st) (channel st) (checksum st).

Definition set_waveform (v : Z) (st : Settings) : Settings :=
  mkSettings (frequency_0 st) (frequency_1 st) (freqStep st) v (channel st) (checksum st).

Definition set_channel (v : bool) (st : Settings) : Settings :=
  mkSettings (frequency_0 st) (frequency_1 st) (freqStep st) (waveform st) v (checksum st).

Definition set_checksum (v : Z) (st : Settings) : Settings :=
  mkSettings (frequency_0 st) (frequency_1 st) (freqStep st) (waveform st) (channel st) v.

(** The global variables of the sketch, the commands sent to the signal
    generator so far (oldest first) and the EEPROM (address to byte). *)
Record State : Type := mkState {
  settings : Settings;
  isDispDirty : bool;
  isFrequencyDirty : bool;
  outputStat : OutputStatus;
  curMenuSel : Z;
  lastFreqUpdate : Z;
  curDispFrame : DisplayFrame;
  curRow : Z;
  encPos : Z;
  sigGen : list SigGenCall;
  eeprom : Z -> Z
}.

Definition with_settings (v : Settings) (s : State) : State :=
  mkState v (isDispDirty s) (isFrequencyDirty s) (outputStat s) (curMenuSel s)
    (lastFreqUpdate s) (curDispFrame s) (curRow s) (encPos s) (sigGen s) (eeprom s).

Definition with_isDispDirty (v : bool) (s : State) : State :=
  mkState (settings s) v (isFrequencyDirty s) (outputStat s) (curMenuSel s)
    (lastFreqUpdate s) (curDispFrame s) (curRow s) (encPos s) (sigGen s) (eeprom s).

Definition with_isFrequencyDirty (v : bool) (s : State) : State :=
  mkState (settings s) (isDispDirty s) v (outputStat s) (curMenuSel s)
    (lastFreqUpdate s) (curDispFrame s) (curRow s) (encPos s) (sigGen s) (eeprom s).

Definition with_outputStat (v : OutputStatus) (s : State) : State :=
  mkState (settings s) (isDispDirty s) (isFrequencyDirty s) v (curMenuSel s)
    (lastFreqUpdate s) (curDispFrame s) (curRow s) (encPos s) (sigGen s) (eeprom s).

Definition with_curMenuSel (v : Z) (s : State) : State :=
  mkState (settings s) (isDispDirty s) (isFrequencyDirty s) (outputStat s) v
    (lastFreqUpdate s) (curDispFrame s) (curRow s) (encPos s) (sigGen s) (eeprom s).

Definition with_lastFreqUpdate (v : Z) (s : State) : State :=
  mkState (settings s) (isDispDirty s) (isFrequencyDirty s) (outputStat s) (curMenuSel s)
    v (curDispFrame s) (curRow s) (encPos s) (sigGen s) (eeprom s).

Definition with_curDispFrame (v : DisplayFrame) (s : State) : State :=
  mkState (settings s) (isDispDirty s) (isFrequencyDirty s) (outputStat s) (curMenuSel s)
    (lastFreqUpdate s) v (curRow s) (encPos s) (sigGen s) (eeprom s).

Definition with_curRow (v : Z) (s : State) : State :=
  mkState (settings s) (isDispDirty s) (isFrequencyDirty s) (outputStat s) (curMenuSel s)
    (lastFreqUpdate s) (curDispFrame s) v (encPos s) (sigGen s) (eeprom s).

Definition with_encPos (v : Z) (s : State) : State :=
  mkState (settings s) (isDispDirty s) (isFrequencyDirty s) (outputStat s) (curMenuSel s)
    (lastFreqUpdate s) (curDispFrame s) (curRow s) v (sigGen s) (eeprom s).

Definition with_eeprom (v : Z -> Z) (s : State) : State :=
  mkState (settings s) (isDispDirty s) (isFrequencyDirty s) (outputStat s) (curMenuSel s)
    (lastFreqUpdate s) (curDispFrame s) (curRow s) (encPos s) (sigGen s) v.

(** A call on [sigGen] is appended to the trace. *)
Definition call (c : SigGenCall) (s : State) : State :=
  mkState (settings s) (isDispDirty s) (isFrequencyDirty s) (outputStat s) (curMenuSel s)
    (lastFreqUpdate s) (curDispFrame s) (curRow s) (encPos s) (sigGen s ++ [c]) (eeprom s).

(** *** Signal generator glue *)

Definition chan_of (channel : bool) : channel_t := if channel then CHAN_1 else CHAN_0.

Definition setADSigMode (curMode : Z) (s : State) : State :=
  if curMode =? SIN then call (setMode MODE_SINE) s
  else if curMode =? CLK then call (setMode MODE_SQUARE1) s
  else if curMode =? TRI then call (setMode MODE_TRIANGLE) s
  else s.

Definition setADFreq (channel : bool) (freq : Z) (s : State) : State :=
  call (setFrequency (chan_of channel) freq) s.

Definition setADChannel (channel : bool) (s : State) : State :=
  if channel then call (setActiveFrequency CHAN_1) s
  else call (setActiveFrequency CHAN_0) s.

(** [outputStat = (OutputStatus) !(bool)outputStat;] then the mode command. *)
Definition toggleOutput (s : State) : State :=
  let s1 := with_outputStat (match outputStat s with OFF => ON | ON => OFF end) s in
  match outputStat s1 with
  | OFF => call (setMode MODE_OFF) s1
  | ON => setADSigMode (waveform (settings s1)) s1
  end.

(** [setWaveform] only places the display cursor. *)
Definition setWaveform (newWaveform : Z) (s : State) : State := s.

(** *** Rotation handlers *)

Definition changeFreq (rotDir : Direction) (millis : Z) (s : State) : State :=
  let st := settings s in
  let curFreq := frequency st (channel st) in
  let st' :=
    match rotDir with
    | CLOCKWISE =>
        let newFreq := s32 (curFreq + freqStep st) in
        set_frequency (channel st)
          (if u32 newFreq <? maxFreq then u32 newFreq else maxFreq) st
    | COUNTERCLOCKWISE =>
        let newFreq := s32 (curFreq - freqStep st) in
        set_frequency (channel st)
          (if newFreq >? 0 then u32 newFreq else freqStep st) st
    | NOROTATION => st
    end in
  with_isFrequencyDirty true (with_lastFreqUpdate millis (with_settings st' s)).

Section StepEditor.
Context {libm : Libm}.

Definition changeStep (rotDir : Direction) (s : State) : State :=
  let st := settings s in
  let idc := double_to_u16 (log10 (freqStep st)) in
  let idc' :=
    match rotDir with
    | CLOCKWISE =>
        if Qlt_le_dec (inject_Z idc) (log10 maxFreqStep)
        then u16 (idc + 1)
        else double_to_u16 (log10 maxFreqStep)
    | _ => if idc >? 1 then idc - 1 else 0
    end in
  with_settings (set_freqStep (u32 (round (pow 10 idc'))) st) s.

Definition changeMenu (rotDir : Direction) (s : State) : State :=
  let arrLen := menuItmStr_len in
  let s' :=
    match rotDir with
    | CLOCKWISE =>
        if curMenuSel s <? arrLen - 1
        then with_curMenuSel (u8 (curMenuSel s + 1)) s
        else with_curMenuSel Version s
    | COUNTERCLOCKWISE =>
        if curMenuSel s >? 0
        then with_curMenuSel (u8 (curMenuSel s - 1)) s
        else with_curMenuSel Function s
    | NOROTATION => s
    end in
  with_isDispDirty true s'.

Definition handleSettingChange (rotDir : Direction) (millis : Z) (s : State) : State :=
  let len := waveformStr_len in
  if curMenuSel s =? Function then
    let w := waveform (settings s) in
    let w' :=
      match rotDir with
      | CLOCKWISE => if w + 1 <? len then u8 (w + 1) else 0
      | COUNTERCLOCKWISE => if w >? 0 then u8 (w - 1) else u8 (len - 1)
      | NOROTATION => w
      end in
    let s1 := with_settings (set_waveform w' (settings s)) s in
    let s2 := toggleOutput s1 in
    setWaveform (waveform (settings s2)) s2
  else if curMenuSel s =? Frequency then
    if curRow s =? 0 then changeFreq rotDir millis s else changeStep rotDir s
  else s.

Definition encRotate (rotDir : Direction) (millis : Z) (s : State) : State :=
  match curDispFrame s with
  | HOME_PAGE => changeFreq rotDir millis s
  | MENU => changeMenu rotDir s
  | SETTING => handleSettingChange rotDir millis s
  end.

End StepEditor.

(** *** Button handlers *)

Definition encPress (s : State) : State :=
  match curDispFrame s with
  | HOME_PAGE => toggleOutput s
  | MENU => with_isDispDirty true (with_curDispFrame SETTING s)
  | SETTING =>
      if curMenuSel s =? Frequency
      then with_curRow (if curRow s =? 0 then 1 else 0) s
      else with_isDispDirty true (with_curDispFrame MENU s)
  end.

Definition encDoublePress (s : State) : State :=
  match curDispFrame s with
  | HOME_PAGE =>
      let s1 := with_settings (set_channel (negb (channel (settings s))) (settings s)) s in
      setADChannel (channel (settings s1)) s1
  | _ => s
  end.

Definition encLongPress (s : State) : State :=
  let s' :=
    match curDispFrame s with
    | HOME_PAGE => with_curDispFrame MENU s
    | MENU => with_curDispFrame HOME_PAGE (with_curMenuSel 0 s)
    | SETTING =>
        if curMenuSel s =? Frequency
        then with_curRow 0 (with_curDispFrame MENU s)
        else s
    end in
  with_isDispDirty true s'.

(** [encBtn.tick()] fires at most one of the attached handlers. *)
Definition encBtn_tick (ev : option ButtonEvent) (s : State) : State :=
  match ev with
  | None => s
  | Some Click => encPress s
  | Some DoubleClick => encDoublePress s
  | Some LongPressStart => encLongPress s
  end.

(** [updateDisplay] redraws the current frame and clears the flag. *)
Definition updateDisplay (s : State) : State := with_isDispDirty false s.

(** *** The control loop *)

(** What one pass of [loop] observes of its environment: the gesture
    delivered by [encBtn.tick()], [millis()] at the debounce test,
    [enc.getPosition()], and, when the position moved, [enc.getDirection()]
    and [millis()] inside the rotation handler. *)
Record LoopInput : Type := mkLoopInput {
  button : option ButtonEvent;
  now : Z;
  newPos : Z;
  rotDir : Direction;
  rotTime : Z
}.

(** The [RUNNING_FREQUENCY] block of [loop]. *)
Definition loop_runningFrequency (now : Z) (s : State) : State :=
  if isFrequencyDirty s then
    if u32 (now - lastFreqUpdate s) >? freqUpdateDelay then
      with_isFrequencyDirty false
        (setADFreq (channel (settings s))
                   (frequency (settings s) (channel (settings s))) s)
    else s
  else s.

Section MainLoop.
Context {libm : Libm}.

Definition loop (i : LoopInput) (s : State) : State :=
  let s1 := encBtn_tick (button i) s in
  let s2 := loop_runningFrequency (now i) s1 in
  let s3 :=
    if encPos s2 =? newPos i then s2
    else with_encPos (newPos i) (encRotate (rotDir i) (rotTime i) s2) in
  if isDispDirty s3 then updateDisplay s3 else s3.

(** Successive passes of [loop], first input first. *)
Definition run (inputs : list LoopInput) (s : State) : State :=
  fold_left (fun acc i => loop i acc) inputs s.

End MainLoop.

(** *** Persisted settings *)

(** [sizeof(Settings)]: 3 * 4 + 1 + 1 + 1 bytes. *)
Definition sizeof_Settings : nat := 15.

(** Little-endian image of an [unsigned long] and back. *)
Definition le_bytes (n : nat) (z : Z) : list Z :=
  map (fun i => u8 (Z.shiftr z (8 * Z.of_nat i))) (seq 0 n).

Fixpoint le_value (bs : list Z) : Z :=
  match bs with
  | [] => 0
  | b :: rest => b + 256 * le_value rest
  end.

(** The bytes of [settings] in memory, i.e. [(byte * )&settings]. *)
Definition settings_bytes (st : Settings) : list Z :=
  le_bytes 4 (frequency_0 st) ++ le_bytes 4 (frequency_1 st) ++
  le_bytes 4 (freqStep st) ++
  [waveform st; if channel st then 1 else 0; checksum st].

(** The struct seen through a memory image. *)
Definition settings_of_bytes (bs : list Z) : Settings :=
  mkSettings (le_value (firstn 4 bs))
             (le_value (firstn 4 (skipn 4 bs)))
             (le_value (firstn 4 (skipn 8 bs)))
             (nth 12 bs 0)
             (negb (nth 13 bs 0 =? 0))
             (nth 14 bs 0).

Definition eeprom_read_block (rom : Z -> Z) (addr : Z) (n : nat) : list Z :=
  map (fun i => rom (addr + Z.of_nat i)) (seq 0 n).

Definition eeprom_update_block (src : list Z) (addr : Z) (n : nat)
  (rom : Z -> Z) : Z -> Z :=
  fun a =>
    if (addr <=? a) && (a <? addr + Z.of_nat n)
    then nth (Z.to_nat (a - addr)) src 0
    else rom a.

(** [readFromEEPROM]: the block lands in [settings]; the checksum is taken
    over that memory less its last byte. *)
Definition readFromEEPROM (s : State) : bool * State :=
  let image := eeprom_read_block (eeprom s) EEPROM_ADDRESS_SHIFT sizeof_Settings in
  let s1 := with_settings (settings_of_bytes image) s in
  let crc := Crc8.crc8block image (sizeof_Settings - 1) in
  (crc =? checksum (settings s1), s1).

Definition writeToEEPROM (s : State) : State :=
  let crc := Crc8.crc8block (settings_bytes (settings s)) (sizeof_Settings - 1) in
  let s1 := with_settings (set_checksum crc (settings s)) s in
  with_eeprom
    (eeprom_update_block (settings_bytes (settings s1)) EEPROM_ADDRESS_SHIFT
       sizeof_Settings (eeprom s1))
    s1.

Definition resetSettings (s : State) : State :=
  let st := settings s in
  let st := set_frequency false (channelFreqs 0) st in
  let st := set_frequency false (channelFreqs 1) st in
  let st := set_freqStep encFreqStep st in
  let st := set_waveform CLK st in
  let st := set_channel false st in
  with_settings st s.

(** *** Start-up *)

(** The globals before [setup]; with [ENABLE_EEPROM] the struct has no
    initializer and starts zeroed. *)
Definition initial_settings (ENABLE_EEPROM : bool) : Settings :=
  if ENABLE_EEPROM
  then mkSettings 0 0 0 0 false 0
  else mkSettings (channelFreqs 0) (channelFreqs 1) encFreqStep SIN false 0.

Definition initial_state (ENABLE_EEPROM : bool) (rom : Z -> Z) : State :=
  mkState (initial_settings ENABLE_EEPROM) true true ON Function 0 HOME_PAGE 0 0 [] rom.

(** [setup]; [ENABLE_EEPROM] selects the conditional block.  In that block
    the local flag bears the name of the function it guards; the guarded
    statements are read as the calls [resetSettings(); writeToEEPROM();]. *)
Definition setup (ENABLE_EEPROM : bool) (s : State) : State :=
  let s1 :=
    if ENABLE_EEPROM then
      let (ok, s') := readFromEEPROM s in
      let reset := negb ok in
      if reset then writeToEEPROM (resetSettings s') else s'
    else s in
  let s2 := call begin s1 in
  let s3 := setADFreq false (frequency (settings s2) false) s2 in
  let s4 := setADFreq true (frequency (settings s3) true) s3 in
  let s5 := setADChannel (channel (settings s4)) s4 in
  toggleOutput s5.

(** The record is valid when the checksum over all bytes but the last
    equals the stored checksum byte. *)
Definition stored_record_valid (rom : Z -> Z) : bool :=
  let image := eeprom_read_block rom EEPROM_ADDRESS_SHIFT sizeof_Settings in
  Crc8.crc8block image (sizeof_Settings - 1) =? nth 14 image 0.

(** A factory-fresh EEPROM: every cell reads [0xFF]. *)
Definition erased_eeprom : Z -> Z := fun _ => 0xFF.

(** Every field within the range of its C type. *)
Definition settings_in_range (st : Settings) : Prop :=
  is_u32 (frequency_0 st) /\ is_u32 (frequency_1 st) /\ is_u32 (freqStep st) /\
  is_u8 (waveform st) /\ is_u8 (checksum st).

(** *** Vocabulary of the properties *)

(** The frequency of the active channel, as shown on the home screen. *)
Definition active_frequency (s : State) : Z :=
  frequency (settings s) (channel (settings s)).

(** A series of rotate events, each with the clock reading at its handling. *)
Definition rotations {libm : Libm} (evs : list (Direction * Z)) (s : State) : State :=
  fold_left (fun acc ev => encRotate (fst ev) (snd ev) acc) evs s.

(** A series of staging calls and a series of debounce tests. *)
Definition stagings (evs : list (Direction * Z)) (s : State) : State :=
  fold_left (fun acc ev => changeFreq (fst ev) (snd ev) acc) evs s.

Definition ticks (nows : list Z) (s : State) : State :=
  fold_left (fun acc n => loop_runningFrequency n acc) nows s.

(** A pass of [loop] in which the encoder has not moved since start-up. *)
Definition no_rotation (i : LoopInput) : Prop := newPos i = 0.

Definition all_turn (d : Direction) (evs : list (Direction * Z)) : Prop :=
  Forall (fun ev => fst ev = d) evs.

(** What the debounce test depends on, and the tally of [setFrequency]. *)
Definition regulator (s : State) : bool * Z * Z * nat :=
  (isFrequencyDirty s, lastFreqUpdate s, encPos s, count_setFrequency (sigGen s)).

End Part000.

(** ** The sketch with per-channel waveforms (src/unnamed/part_001) *)

Module Part001.

Definition SIN : Z := 0.
Definition CLK : Z := 1.
Definition TRI : Z := 2.

Definition Function : Z := 0.
Definition Frequency : Z := 1.
Definition Phase : Z := 2.
Definition Version : Z := 3.

Inductive DisplayFrame : Type := HOME_PAGE | MENU | SETTING.

Definition maxFreq : Z := 1000000.
Definition encFreqStep : Z := 1000.
Definition menuItmStr_len : Z := 4.

(** [struct Settings] *)
Record Settings : Type := mkSettings {
  frequency_0 : Z;
  frequency_1 : Z;
  waveform_0 : Z;
  waveform_1 : Z;
  channel : bool;
  checksum : Z
}.

Definition frequency (st : Settings) (c : bool) : Z :=
  if c then frequency_1 st else frequency_0 st.

Definition set_frequency (c : bool) (f : Z) (st : Settings) : Settings :=
  if c
  then mkSettings (frequency_0 st) f (waveform_0 st) (waveform_1 st) (channel st) (checksum st)
  else mkSettings f (frequency_1 st) (waveform_0 st) (waveform_1 st) (channel st) (checksum st).

(** The globals [encRotate] reads or writes. *)
Record State : Type := mkState {
  settings : Settings;
  isDispDirty : Z;
  curMenuSel : Z;
  curDispFrame : DisplayFrame
}.

(** [encRotate]; [curFreq] is a [long * ] onto the active channel's slot.
    In the [SETTING] frame only a local copy of the waveform and the display
    cursor change. *)
Definition encRotate (rotDir : Direction) (s : State) : State :=
  let st := settings s in
  let curFreq := s32 (frequency st (channel st)) in
  match curDispFrame s with
  | HOME_PAGE =>
      let st' :=
        match rotDir with
        | COUNTERCLOCKWISE =>
            let newFreq := s32 (curFreq + encFreqStep) in
            if u32 newFreq <? maxFreq
            then set_frequency (channel st) (u32 newFreq) st
            else set_frequency (channel st) maxFreq st
        | CLOCKWISE =>
            let newFreq := s32 (curFreq - encFreqStep) in
            if newFreq >? 0
            then set_frequency (channel st) (u32 newFreq) st
            else set_frequency (channel st) 0 st
        | NOROTATION => st
        end in
      mkState st' (isDispDirty s) (curMenuSel s) (curDispFrame s)
  | MENU =>
      let arrLen := menuItmStr_len in
      let sel :=
        match rotDir with
        | COUNTERCLOCKWISE =>
            if curMenuSel s <? arrLen - 1
            then u8 (curMenuSel s + 1)
            else u8 (arrLen - 1)
        | CLOCKWISE =>
            if curMenuSel s >? 0
            then u8 (curMenuSel s + 1)
            else Function
        | NOROTATION => curMenuSel s
        end in
      mkState (settings s) 1 sel (curDispFrame s)
  | SETTING => s
  end.

(** [encLongPress]: between the home frame and the menu. *)
Definition encLongPress (s : State) : State :=
  let frame :=
    match curDispFrame s with
    | HOME_PAGE => MENU
    | MENU => HOME_PAGE
    | SETTING => SETTING
    end in
  mkState (settings s) 1 (curMenuSel s) frame.

(** [channelFreqs[2] = {10000, 500000}] and the globals at reset (the
    initializer of the build without EEPROM). *)
Definition channelFreqs (i : nat) : Z :=
  match i with O => 10000 | _ => 500000 end.

Definition initial_state : State :=
  mkState (mkSettings (channelFreqs 0) (channelFreqs 1) SIN SIN false 0)
          1 Function HOME_PAGE.

Definition active_frequency (s : State) : Z :=
  frequency (settings s) (channel (settings s)).

Definition rotations (evs : list Direction) (s : State) : State :=
  fold_left (fun acc d => encRotate d acc) evs s.

End Part001.

(** Accuracy asked of the math library by the step editor: the logarithm is
    exact on the powers of ten up to [maxFreqStep], and a power of ten is off
    by less than one half. *)
Class LibmAccurate (libm : Libm) : Prop := {
  log10_pow10 : forall k, 0 <= k <= 5 -> (log10 (10 ^ k) == inject_Z k)%Q;
  pow10_near : forall k, 0 <= k <= 5 ->
    (inject_Z (10 ^ k) - (1 # 2) < pow 10 k)%Q /\
    (pow 10 k < inject_Z (10 ^ k) + (1 # 2))%Q
}.

(** ** Further vocabulary for the sketch with the step editor *)

Module Panel.

Import Part000.

(** A series of gestures on the button, one per call of [encBtn.tick()]. *)
Definition gestures (evs : list ButtonEvent) (s : State) : State :=
  fold_left (fun acc ev => encBtn_tick (Some ev) acc) evs s.

(** The selection is a menu item, the edit row is 0 or 1 and the waveform
    is one of the three of the enum. *)
Definition navigation_ok (s : State) : Prop :=
  0 <= curMenuSel s <= menuItmStr_len - 1 /\
  (curRow s = 0 \/ curRow s = 1) /\
  0 <= waveform (settings s) <= waveformStr_len - 1.

(** The step is a power of ten up to [maxFreqStep] and both channels hold a
    frequency in (0, maxFreq]. *)
Definition settings_ok (st : Settings) : Prop :=
  (exists k, 0 <= k <= 5 /\ freqStep st = 10 ^ k) /\
  0 < frequency_0 st <= maxFreq /\
  0 < frequency_1 st <= maxFreq.

(** The last mode and the last active channel sent to the generator. *)
Definition last_mode (tr : list SigGenCall) : option mode_t :=
  fold_left (fun acc c => match c with setMode m => Some m | _ => acc end) tr None.

Definition last_active_channel (tr : list SigGenCall) : option channel_t :=
  fold_left (fun acc c => match c with setActiveFrequency ch => Some ch | _ => acc end)
    tr None.

(** The mode the generator should be in for the output status and waveform
    of the sketch. *)
Definition expected_mode (s : State) : mode_t :=
  match outputStat s with
  | OFF => MODE_OFF
  | ON =>
      if waveform (settings s) =? SIN then MODE_SINE
      else if waveform (settings s) =? CLK then MODE_SQUARE1
      else MODE_TRIANGLE
  end.

(** The generator mirrors the sketch: mode and active channel as last sent
    agree with the variables. *)
Definition mirrored (s : State) : Prop :=
  0 <= waveform (settings s) <= waveformStr_len - 1 /\
  last_mode (sigGen s) = Some (expected_mode s) /\
  last_active_channel (sigGen s) = Some (chan_of (channel (settings s))).


(** A block with the byte at index [i] replaced, and an EEPROM with the
    cell at address [a] replaced. *)
Definition poke (i : nat) (v : Z) (cells : list Z) : list Z :=
  firstn i cells ++ v :: skipn (S i) cells.

Definition corrupt_cell (a v : Z) (rom : Z -> Z) : Z -> Z :=
  fun x => if x =? a then v else rom x.

(** Passes of [loop] while the knob keeps turning: no gesture, the encoder
    at a new position in every pass, and each debounce test no more than the
    delay after the previous staging ([pos] and [last] are the position and
    the staging time before the first pass). *)
Fixpoint turning (pos last : Z) (inputs : list LoopInput) : Prop :=
  match inputs with
  | [] => True
  | i :: rest =>
      button i = None /\ newPos i <> pos /\
      u32 (now i - last) <= freqUpdateDelay /\
      turning (newPos i) (rotTime i) rest
  end.

End Panel.

(* ================================================================== *)
(** * Part II: properties *)
(* ================================================================== *)

(** ** Machine integers *)

Module AVRFacts.

Lemma u8_range (z : Z) : is_u8 (u8 z).
Proof. unfold is_u8, u8, wrap. apply Z.mod_pos_bound. reflexivity. Qed.

Lemma u32_small (z : Z) : 0 <= z < 2 ^ 32 -> u32 z = z.
Proof. intros H. unfold u32, wrap. apply Z.mod_small. exact H. Qed.

Lemma u8_small (z : Z) : 0 <= z < 256 -> u8 z = z.
Proof. intros H. unfold u8, wrap. apply Z.mod_small. exact H. Qed.

Lemma u16_small (z : Z) : 0 <= z < 65536 -> u16 z = z.
Proof. intros H. unfold u16, wrap. apply Z.mod_small. exact H. Qed.

Lemma s32_small (z : Z) : - 2 ^ 31 <= z < 2 ^ 31 -> s32 z = z.
Proof.
  intros H. unfold s32, u32, wrap.
  change (2 ^ 32) with 4294967296. change (2 ^ 31) with 2147483648 in *.
  destruct (Z.ltb_spec (z mod 4294967296) 2147483648) as [Hlt | Hge];
    Z.to_euclidean_division_equations; lia.
Qed.

Lemma repeat_body_invariant {A : Type} (P : A -> Prop) (body : A -> A) :
  (forall a, P a -> P (body a)) ->
  forall n a, P a -> P (repeat_body n body a).
Proof.
  intros Hstep n. induction n as [| n IH]; intros a Ha; simpl.
  - exact Ha.
  - apply IH, Hstep, Ha.
Qed.

Lemma below_256_cases (P : Z -> bool) :
  forallb P (map Z.of_nat (seq 0 256)) = true ->
  forall c, is_u8 c -> P c = true.
Proof.
  intros Hall c [Hlo Hhi].
  rewrite forallb_forall in Hall. apply Hall.
  apply in_map_iff. exists (Z.to_nat c). split.
  - apply Z2Nat.id. exact Hlo.
  - apply in_seq. lia.
Qed.

End AVRFacts.

(** ** The checksum *)

Module Crc8Facts.

Import AVRFacts Crc8 Crc8Reference.

(** The bits of a byte determine it. *)
Lemma byte_of_bits_of_byte (c : Z) : is_u8 c -> byte_of_bits (bits_of_byte c) = c.
Proof.
  intros Hc. apply Z.eqb_eq.
  apply (below_256_cases (fun c => byte_of_bits (bits_of_byte c) =? c)).
  - vm_compute. reflexivity.
  - exact Hc.
Qed.

(** XORing the next byte into the running value, bit by bit. *)
Lemma u8_testbit (z i : Z) : 0 <= i < 8 -> Z.testbit (u8 z) i = Z.testbit z i.
Proof. intros Hi. unfold u8, wrap. apply Z.mod_pow2_bits_low. lia. Qed.

Lemma xor_refines (crc b : Z) :
  bits_of_byte (u8 (Z.lxor crc b)) = xor_bits (bits_of_byte crc) (bits_of_byte b).
Proof.
  unfold bits_of_byte. cbn [map xor_bits].
  rewrite !u8_testbit by (cbn; lia).
  rewrite !Z.lxor_spec. reflexivity.
Qed.

Lemma register_eqb_eq (a : register) : forall b, register_eqb a b = true -> a = b.
Proof.
  induction a as [| x a IH]; intros [| y b] H; simpl in H; try discriminate.
  - reflexivity.
  - apply andb_prop in H. destruct H as [Hxy Hab].
    apply Bool.eqb_prop in Hxy. subst y. f_equal. apply IH, Hab.
Qed.

(** One round of the inner loop is one step of the shift register. *)
Lemma round_refines (crc : Z) :
  is_u8 crc -> bits_of_byte (crc8_round crc) = shift_step (bits_of_byte crc).
Proof.
  intros Hc.
  pose (same := fun c =>
    register_eqb (bits_of_byte (crc8_round c)) (shift_step (bits_of_byte c))).
  assert (Hsame : same crc = true).
  { apply below_256_cases; [vm_compute; reflexivity | exact Hc]. }
  apply register_eqb_eq. exact Hsame.
Qed.

Lemma round_range (crc : Z) : is_u8 (crc8_round crc).
Proof. unfold crc8_round. destruct (_ =? _); apply u8_range. Qed.

Lemma rounds_refine (n : nat) : forall crc,
  is_u8 crc ->
  is_u8 (repeat_body n crc8_round crc) /\
  bits_of_byte (repeat_body n crc8_round crc) =
  repeat_body n shift_step (bits_of_byte crc).
Proof.
  induction n as [| n IH]; intros crc Hc; simpl.
  - split; [exact Hc | reflexivity].
  - rewrite <- round_refines by exact Hc.
    apply IH, round_range.
Qed.

(** The loop over the block, from any running value. *)
Lemma while_refines (pcBlock : list Z) : forall len crc,
  is_u8 crc ->
  crc8block_while pcBlock len crc =
  byte_of_bits (fold_left absorb (firstn len pcBlock) (bits_of_byte crc)).
Proof.
  induction pcBlock as [| b rest IH]; intros len crc Hc.
  - destruct len; simpl; symmetry; apply byte_of_bits_of_byte, Hc.
  - destruct len as [| len]; cbn [crc8block_while firstn fold_left].
    + symmetry. apply byte_of_bits_of_byte, Hc.
    + destruct (rounds_refine 8 (u8 (Z.lxor crc b)) (u8_range _)) as [Hr Hb].
      rewrite IH by exact Hr.
      rewrite Hb, xor_refines. reflexivity.
Qed.

(** The checksum is a byte. *)
Lemma crc8block_range (pcBlock : list Z) (len : nat) : is_u8 (crc8block pcBlock len).
Proof.
  unfold crc8block.
  assert (H : forall l n crc, is_u8 crc -> is_u8 (crc8block_while l n crc)).
  { induction l as [| b rest IH]; intros n crc Hc.
    - destruct n; exact Hc.
    - destruct n as [| n]; cbn [crc8block_while]; [exact Hc |].
      apply IH. apply (rounds_refine 8). apply u8_range. }
  apply H. unfold is_u8. lia.
Qed.

Lemma crc8block_is_reference_checksum_on_prefix (pcBlock : list Z) (len : nat) :
  crc8block pcBlock len = checksum (firstn len pcBlock).
Proof.
  unfold crc8block, checksum. apply while_refines. unfold is_u8. lia.
Qed.

(** The checksum reads no further than [len] bytes. *)
Lemma crc8block_app (l r : list Z) : crc8block (l ++ r) (length l) = crc8block l (length l).
Proof.
  unfold crc8block. rewrite !while_refines by (unfold is_u8; lia).
  rewrite firstn_app, Nat.sub_diag, firstn_all. simpl. rewrite app_nil_r. reflexivity.
Qed.

(** C5.  For every byte span (the first [len] bytes at [pcBlock]),
    [crc8block] computes exactly the reference checksum: the 8-bit CRC with
    polynomial 0x31, initial value 0xFF, no final XOR, most significant bit
    first, where each input byte is XORed into the running CRC which is then
    shifted left eight times, XORing with the polynomial whenever the top bit
    was set before the shift. *)
Theorem crc8block_is_reference_checksum (pcBlock : list Z) (len : nat) :
  crc8block pcBlock len = checksum (firstn len pcBlock).
Proof. apply crc8block_is_reference_checksum_on_prefix. Qed.

(** On a whole list of bytes. *)
Corollary crc8block_whole (bytes : list Z) :
  crc8block bytes (length bytes) = checksum bytes.
Proof.
  pose proof (while_refines bytes (length bytes) 0xFF) as H.
  rewrite firstn_all in H. apply H. unfold is_u8. lia.
Qed.

(** The catalogue check value of this CRC (CRC-8/NRSC-5) on "123456789". *)
Example crc8block_check_value :
  crc8block [49; 50; 51; 52; 53; 54; 55; 56; 57] 9 = 0xF7.
Proof. reflexivity. Qed.

End Crc8Facts.

(** ** Frequency regulation *)

Module FrequencyFacts.

Import AVRFacts.

(** *** The sketch with the step editor *)

Section OnPart000.
Import Part000.

Lemma frequency_set_frequency (c : bool) (f : Z) (st : Settings) :
  frequency (set_frequency c f st) c = f.
Proof. destruct c; reflexivity. Qed.

Lemma channel_set_frequency (c : bool) (f : Z) (st : Settings) :
  channel (set_frequency c f st) = channel st.
Proof. destruct c; reflexivity. Qed.

Lemma freqStep_set_frequency (c : bool) (f : Z) (st : Settings) :
  freqStep (set_frequency c f st) = freqStep st.
Proof. destruct c; reflexivity. Qed.

(** What [changeFreq] leaves in the active channel's slot. *)
Lemma changeFreq_active_frequency (d : Direction) (t : Z) (s : State) :
  active_frequency (changeFreq d t s) =
  match d with
  | CLOCKWISE =>
      let newFreq := s32 (active_frequency s + freqStep (settings s)) in
      if u32 newFreq <? maxFreq then u32 newFreq else maxFreq
  | COUNTERCLOCKWISE =>
      let newFreq := s32 (active_frequency s - freqStep (settings s)) in
      if newFreq >? 0 then u32 newFreq else freqStep (settings s)
  | NOROTATION => active_frequency s
  end.
Proof.
  unfold active_frequency, changeFreq.
  destruct d; cbn [settings with_settings with_lastFreqUpdate with_isFrequencyDirty];
    try reflexivity;
    rewrite channel_set_frequency, frequency_set_frequency; reflexivity.
Qed.

Lemma changeFreq_freqStep (d : Direction) (t : Z) (s : State) :
  freqStep (settings (changeFreq d t s)) = freqStep (settings s).
Proof.
  unfold changeFreq. destruct d; cbn [settings with_settings with_lastFreqUpdate with_isFrequencyDirty];
    try reflexivity; apply freqStep_set_frequency.
Qed.

Lemma changeFreq_channel (d : Direction) (t : Z) (s : State) :
  channel (settings (changeFreq d t s)) = channel (settings s).
Proof.
  unfold changeFreq. destruct d; cbn [settings with_settings with_lastFreqUpdate with_isFrequencyDirty];
    try reflexivity; apply channel_set_frequency.
Qed.

Lemma changeFreq_curDispFrame (d : Direction) (t : Z) (s : State) :
  curDispFrame (changeFreq d t s) = curDispFrame s.
Proof. reflexivity. Qed.

Lemma changeFreq_sigGen (d : Direction) (t : Z) (s : State) :
  sigGen (changeFreq d t s) = sigGen s.
Proof. reflexivity. Qed.

(** Staging marks the value dirty and records the time. *)
Lemma changeFreq_stages (d : Direction) (t : Z) (s : State) :
  isFrequencyDirty (changeFreq d t s) = true /\ lastFreqUpdate (changeFreq d t s) = t.
Proof. split; reflexivity. Qed.

(** One rotation keeps the frequency within its bounds: it saturates at
    [maxFreq] above and restarts from [freqStep] below. *)
Lemma changeFreq_range (d : Direction) (t : Z) (s : State) :
  0 < active_frequency s <= maxFreq ->
  0 <= freqStep (settings s) <= maxFreq ->
  0 < active_frequency (changeFreq d t s) <= maxFreq.
Proof.
  intros Hf Hstep. rewrite changeFreq_active_frequency.
  unfold maxFreq in *. destruct d; cbv zeta.
  - exact Hf.
  - rewrite s32_small by (change (2 ^ 31) with 2147483648; lia).
    rewrite u32_small by (change (2 ^ 32) with 4294967296; lia).
    destruct (Z.ltb_spec (active_frequency s + freqStep (settings s)) 1000000); lia.
  - rewrite s32_small by (change (2 ^ 31) with 2147483648; lia).
    rewrite Z.gtb_ltb.
    destruct (Z.ltb_spec 0 (active_frequency s - freqStep (settings s))) as [Hpos | Hneg].
    + rewrite u32_small by (change (2 ^ 32) with 4294967296; lia). lia.
    + lia.
Qed.

Lemma home_rotations_range {libm : Libm} (evs : list (Direction * Z)) : forall s,
  curDispFrame s = HOME_PAGE ->
  0 < active_frequency s <= maxFreq ->
  0 <= freqStep (settings s) <= maxFreq ->
  0 < active_frequency (rotations evs s) <= maxFreq.
Proof.
  induction evs as [| [d t] evs IH]; intros s Hhome Hf Hstep.
  - exact Hf.
  - cbn [rotations fold_left fst snd].
    assert (Hrot : encRotate d t s = changeFreq d t s).
    { unfold encRotate. rewrite Hhome. reflexivity. }
    rewrite Hrot. apply IH.
    + rewrite changeFreq_curDispFrame. exact Hhome.
    + apply changeFreq_range; assumption.
    + rewrite changeFreq_freqStep. exact Hstep.
Qed.

(** A step above [maxFreq] (never produced by the step editor) may carry the
    frequency out of its bounds. *)
Example changeFreq_oversized_step :
  let s := with_settings (mkSettings 1000 1000 2000000 SIN false 0)
             (initial_state false erased_eeprom) in
  active_frequency (changeFreq COUNTERCLOCKWISE 0 s) = 2000000.
Proof. reflexivity. Qed.

End OnPart000.

(** *** The sketch with per-channel waveforms *)

Section OnPart001.
Import Part001.

Lemma part001_frequency_set_frequency (c : bool) (f : Z) (st : Settings) :
  frequency (set_frequency c f st) c = f /\ channel (set_frequency c f st) = channel st.
Proof. destruct c; split; reflexivity. Qed.

(** One rotation in the home frame: the frequency saturates at [maxFreq]
    above and at 0 below. *)
Lemma part001_encRotate_range (d : Direction) (s : State) :
  curDispFrame s = HOME_PAGE ->
  0 <= active_frequency s <= maxFreq ->
  curDispFrame (encRotate d s) = HOME_PAGE /\
  0 <= active_frequency (encRotate d s) <= maxFreq.
Proof.
  intros Hhome Hf. unfold encRotate. rewrite Hhome.
  split; [reflexivity |].
  unfold active_frequency in *. cbn [settings].
  set (st := settings s) in *. set (c := channel st) in *.
  unfold maxFreq, encFreqStep in *.
  rewrite (s32_small (frequency st c)) by (change (2 ^ 31) with 2147483648; lia).
  destruct d.
  - exact Hf.
  - rewrite s32_small by (change (2 ^ 31) with 2147483648; lia).
    rewrite Z.gtb_ltb.
    destruct (Z.ltb_spec 0 (frequency st c - 1000));
      destruct (part001_frequency_set_frequency c (u32 (frequency st c - 1000)) st) as [E1 E2];
      destruct (part001_frequency_set_frequency c 0 st) as [E3 E4].
    + rewrite E2. fold c. rewrite E1.
      rewrite u32_small by (change (2 ^ 32) with 4294967296; lia). lia.
    + rewrite E4. fold c. rewrite E3. lia.
  - rewrite s32_small by (change (2 ^ 31) with 2147483648; lia).
    rewrite u32_small by (change (2 ^ 32) with 4294967296; lia).
    destruct (Z.ltb_spec (frequency st c + 1000) 1000000);
      destruct (part001_frequency_set_frequency c (frequency st c + 1000) st) as [E1 E2];
      destruct (part001_frequency_set_frequency c 1000000 st) as [E3 E4].
    + rewrite E2. fold c. rewrite E1. lia.
    + rewrite E4. fold c. rewrite E3. lia.
Qed.

Lemma part001_home_rotations_range (evs : list Direction) : forall s,
  curDispFrame s = HOME_PAGE ->
  0 <= active_frequency s <= maxFreq ->
  0 <= active_frequency (rotations evs s) <= maxFreq.
Proof.
  induction evs as [| d evs IH]; intros s Hhome Hf.
  - exact Hf.
  - cbn [rotations fold_left].
    destruct (part001_encRotate_range d s Hhome Hf) as [Hhome' Hf'].
    apply IH; assumption.
Qed.

End OnPart001.

(** C1 (as amended).  In the home frame every finite sequence of rotate
    events keeps the active channel's frequency within bounds, without
    wrapping and without going negative.  With [changeFreq] (part_000), from
    a frequency in (0, maxFreq] and a step of at most maxFreq, it stays in
    (0, maxFreq]: it saturates at maxFreq and restarts from the step at the
    bottom.  With [encRotate] of part_001 the bottom is 0: from a frequency
    in [0, maxFreq] it stays in [0, maxFreq]. *)
Theorem home_rotations_keep_frequency_in_range :
  (forall (libm : Libm) (s : Part000.State) (evs : list (Direction * Z)),
      Part000.curDispFrame s = Part000.HOME_PAGE ->
      0 < Part000.active_frequency s <= Part000.maxFreq ->
      0 <= Part000.freqStep (Part000.settings s) <= Part000.maxFreq ->
      0 < Part000.active_frequency (Part000.rotations evs s) <= Part000.maxFreq)
  /\
  (forall (s : Part001.State) (evs : list Direction),
      Part001.curDispFrame s = Part001.HOME_PAGE ->
      0 <= Part001.active_frequency s <= Part001.maxFreq ->
      0 <= Part001.active_frequency (Part001.rotations evs s) <= Part001.maxFreq).
Proof.
  split.
  - intros libm s evs. apply home_rotations_range.
  - intros s evs. apply part001_home_rotations_range.
Qed.

(** Three rotate events on the home screen of each sketch after reset. *)
Lemma home_rotations_keep_frequency_in_range_witness :
  0 < Part000.active_frequency
        (@Part000.rotations exact_libm
           [(CLOCKWISE, 0); (COUNTERCLOCKWISE, 5); (COUNTERCLOCKWISE, 9)]
           (Part000.setup false (Part000.initial_state false Part000.erased_eeprom)))
    <= Part000.maxFreq
  /\
  0 <= Part001.active_frequency
         (Part001.rotations [CLOCKWISE; CLOCKWISE; COUNTERCLOCKWISE]
            Part001.initial_state)
    <= Part001.maxFreq.
Proof.
  split.
  - apply (proj1 home_rotations_keep_frequency_in_range).
    + reflexivity.
    + vm_compute. split; [reflexivity | discriminate].
    + vm_compute. split; discriminate.
  - apply (proj2 home_rotations_keep_frequency_in_range).
    + reflexivity.
    + vm_compute. split; discriminate.
Defined.

(** C1 as stated fails on part_001: from the 10 kHz of the reset state, ten
    clockwise rotate events in the home frame leave the active channel at
    0 Hz. *)
Lemma part001_home_rotation_reaches_zero :
  let s := Part001.initial_state in
  let evs := repeat CLOCKWISE 10 in
  Part001.curDispFrame s = Part001.HOME_PAGE /\
  0 < Part001.active_frequency s <= Part001.maxFreq /\
  Part001.active_frequency (Part001.rotations evs s) = 0 /\
  ~ (0 < Part001.active_frequency (Part001.rotations evs s) <= Part001.maxFreq).
Proof.
  cbv zeta. split; [reflexivity |]. split.
  - vm_compute. split; [reflexivity | discriminate].
  - split; [reflexivity |]. vm_compute. intros [H _]. discriminate H.
Qed.

(** *** The debounced commit *)

Section Debounce.
Import Part000.

Lemma tick_before_deadline (now : Z) (s : State) :
  u32 (now - lastFreqUpdate s) <= freqUpdateDelay ->
  loop_runningFrequency now s = s.
Proof.
  intros H. unfold loop_runningFrequency.
  destruct (isFrequencyDirty s); [| reflexivity].
  rewrite Z.gtb_ltb.
  destruct (Z.ltb_spec freqUpdateDelay (u32 (now - lastFreqUpdate s))); [lia | reflexivity].
Qed.

Lemma tick_after_deadline (now : Z) (s : State) :
  isFrequencyDirty s = true ->
  freqUpdateDelay < u32 (now - lastFreqUpdate s) ->
  loop_runningFrequency now s =
  with_isFrequencyDirty false
    (setADFreq (channel (settings s)) (active_frequency s) s).
Proof.
  intros Hdirty H. unfold loop_runningFrequency. rewrite Hdirty.
  rewrite Z.gtb_ltb.
  destruct (Z.ltb_spec freqUpdateDelay (u32 (now - lastFreqUpdate s))); [reflexivity | lia].
Qed.

Lemma tick_when_clean (now : Z) (s : State) :
  isFrequencyDirty s = false -> loop_runningFrequency now s = s.
Proof. intros H. unfold loop_runningFrequency. rewrite H. reflexivity. Qed.

Lemma ticks_before_deadline (nows : list Z) (s : State) :
  Forall (fun n => u32 (n - lastFreqUpdate s) <= freqUpdateDelay) nows ->
  ticks nows s = s.
Proof.
  induction 1 as [| n nows Hn _ IH]; cbn [ticks fold_left].
  - reflexivity.
  - rewrite tick_before_deadline by exact Hn. exact IH.
Qed.

Lemma ticks_when_clean (nows : list Z) (s : State) :
  isFrequencyDirty s = false -> ticks nows s = s.
Proof.
  intros H. induction nows as [| n nows IH]; cbn [ticks fold_left].
  - reflexivity.
  - rewrite tick_when_clean by exact H. exact IH.
Qed.

Lemma stagings_sigGen (evs : list (Direction * Z)) : forall s,
  sigGen (stagings evs s) = sigGen s.
Proof.
  induction evs as [| [d t] evs IH]; intros s; cbn [stagings fold_left fst snd].
  - reflexivity.
  - fold (stagings evs (changeFreq d t s)). rewrite IH. apply changeFreq_sigGen.
Qed.

Lemma stagings_last (evs : list (Direction * Z)) (d : Direction) (t : Z) (s : State) :
  stagings (evs ++ [(d, t)]) s = changeFreq d t (stagings evs s).
Proof. unfold stagings. rewrite fold_left_app. reflexivity. Qed.

(** C2 (as amended).  After any number of staging calls, the last of them
    at time [t], every tick at a time [now] with [now - t <= 400] ms (on the
    32-bit millisecond clock) sends nothing to the signal generator; the
    first tick with [now - t > 400] ms sends [setFrequency] exactly once, with
    the most recently staged value of the active channel, and clears the
    dirty flag; the ticks that follow send nothing. *)
Theorem debounced_commit
  (s : State) (earlier : list (Direction * Z)) (d : Direction) (t : Z)
  (nows : list Z) (now : Z) (later : list Z) :
  let staged := stagings (earlier ++ [(d, t)]) s in
  let committed := loop_runningFrequency now (ticks nows staged) in
  Forall (fun n => u32 (n - t) <= freqUpdateDelay) nows ->
  freqUpdateDelay < u32 (now - t) ->
  sigGen (ticks nows staged) = sigGen s /\
  sigGen committed =
    sigGen s ++ [setFrequency (chan_of (channel (settings staged)))
                              (active_frequency staged)] /\
  isFrequencyDirty committed = false /\
  sigGen (ticks later committed) = sigGen committed.
Proof.
  intros staged committed Hearly Hlate.
  assert (Hst : staged = changeFreq d t (stagings earlier s)) by apply stagings_last.
  assert (Hlast : lastFreqUpdate staged = t) by (rewrite Hst; reflexivity).
  assert (Hdirty : isFrequencyDirty staged = true) by (rewrite Hst; reflexivity).
  assert (Hsig : sigGen staged = sigGen s).
  { unfold staged. apply stagings_sigGen. }
  assert (Hticks : ticks nows staged = staged).
  { apply ticks_before_deadline. rewrite Hlast. exact Hearly. }
  assert (Hcommit : committed =
            with_isFrequencyDirty false
              (setADFreq (channel (settings staged)) (active_frequency staged) staged)).
  { unfold committed. rewrite Hticks.
    apply tick_after_deadline; [exact Hdirty | rewrite Hlast; exact Hlate]. }
  split; [rewrite Hticks; exact Hsig |].
  split; [rewrite Hcommit; cbn [sigGen with_isFrequencyDirty setADFreq call];
          rewrite Hsig; reflexivity |].
  split; [rewrite Hcommit; reflexivity |].
  rewrite ticks_when_clean; [reflexivity | rewrite Hcommit; reflexivity].
Qed.

(** Three quick rotations after start-up, polled at 300 and 400 ms after
    the last of them and then at 401 ms. *)
Lemma debounced_commit_witness :
  let s := setup false (initial_state false erased_eeprom) in
  let staged := stagings ([(CLOCKWISE, 5000); (CLOCKWISE, 5100)] ++ [(CLOCKWISE, 5200)]) s in
  let committed := loop_runningFrequency 5601 (ticks [5500; 5600] staged) in
  sigGen (ticks [5500; 5600] staged) = sigGen s /\
  sigGen committed = sigGen s ++ [setFrequency CHAN_0 13000] /\
  isFrequencyDirty committed = false /\
  sigGen (ticks [5700; 9000] committed) = sigGen committed.
Proof.
  apply (debounced_commit
           (setup false (initial_state false erased_eeprom))
           [(CLOCKWISE, 5000); (CLOCKWISE, 5100)] CLOCKWISE 5200
           [5500; 5600] 5601 [5700; 9000]).
  - repeat constructor; vm_compute; discriminate.
  - vm_compute. reflexivity.
Defined.

(** C2 as stated fails at the deadline itself: a tick exactly 400 ms after
    the staging sends nothing, the value stays dirty. *)
Lemma no_commit_at_400ms :
  let staged := changeFreq CLOCKWISE 5000
                  (setup false (initial_state false erased_eeprom)) in
  lastFreqUpdate staged = 5000 /\
  isFrequencyDirty staged = true /\
  5400 - lastFreqUpdate staged >= 400 /\
  sigGen (loop_runningFrequency 5400 staged) = sigGen staged /\
  count_setFrequency (sigGen (loop_runningFrequency 5400 staged)) =
  count_setFrequency (sigGen staged).
Proof.
  cbv zeta. repeat split; try reflexivity. vm_compute. discriminate.
Qed.

End Debounce.

End FrequencyFacts.

(** ** Menu navigation *)

Module NavigationFacts.

Import AVRFacts.

Section OnPart000.
Import Part000.

(** One rotation in the menu: one item forward or back, held at both ends. *)
Lemma changeMenu_curMenuSel (d : Direction) (s : State) :
  0 <= curMenuSel s <= 3 ->
  curMenuSel (changeMenu d s) =
  match d with
  | CLOCKWISE => Z.min (curMenuSel s + 1) 3
  | COUNTERCLOCKWISE => Z.max (curMenuSel s - 1) 0
  | NOROTATION => curMenuSel s
  end.
Proof.
  intros Hsel. unfold changeMenu, menuItmStr_len, Version, Function.
  destruct d; cbn [curMenuSel with_isDispDirty].
  - reflexivity.
  - destruct (Z.ltb_spec (curMenuSel s) (4 - 1)); cbn [curMenuSel with_curMenuSel].
    + rewrite u8_small by lia. lia.
    + lia.
  - rewrite Z.gtb_ltb.
    destruct (Z.ltb_spec 0 (curMenuSel s)); cbn [curMenuSel with_curMenuSel].
    + rewrite u8_small by lia. lia.
    + lia.
Qed.

Lemma changeMenu_curDispFrame (d : Direction) (s : State) :
  curDispFrame (changeMenu d s) = curDispFrame s.
Proof.
  unfold changeMenu.
  destruct d; try destruct (_ <? _); try destruct (_ >? _); reflexivity.
Qed.

(** With [changeMenu] the selection never leaves the menu, whatever the
    number and direction of the rotations. *)
Lemma menu_rotations_in_bounds {libm : Libm} (evs : list (Direction * Z)) : forall s,
  curDispFrame s = MENU ->
  0 <= curMenuSel s <= menuItmStr_len - 1 ->
  0 <= curMenuSel (rotations evs s) <= menuItmStr_len - 1.
Proof.
  unfold menuItmStr_len.
  induction evs as [| [d t] evs IH]; intros s Hmenu Hsel.
  - exact Hsel.
  - cbn [rotations fold_left fst snd].
    assert (Hrot : encRotate d t s = changeMenu d s).
    { unfold encRotate. rewrite Hmenu. reflexivity. }
    rewrite Hrot. apply IH.
    + rewrite changeMenu_curDispFrame. exact Hmenu.
    + rewrite changeMenu_curMenuSel by lia. destruct d; lia.
Qed.

End OnPart000.

(** C3, on [encRotate] of part_001.  In the menu frame both directions add
    one to the selection, so it leaves [0, 3]: in the menu opened from the
    reset state by a long press, one counterclockwise and three clockwise
    rotate events select index 4, and from [Version] a single clockwise
    rotate event does; [changeMenu] of part_000 keeps the bounds
    ([menu_rotations_in_bounds]). *)
Theorem part001_menu_rotation_leaves_bounds :
  let menu := Part001.encLongPress Part001.initial_state in
  let at_sel sel :=
    Part001.mkState (Part001.settings menu) 1 sel Part001.MENU in
  (Part001.curDispFrame menu = Part001.MENU /\
   Part001.curMenuSel menu = Part001.Function) /\
  Part001.curMenuSel
    (Part001.rotations [COUNTERCLOCKWISE; CLOCKWISE; CLOCKWISE; CLOCKWISE] menu) = 4 /\
  Part001.curMenuSel (Part001.encRotate CLOCKWISE (at_sel Part001.Version)) = 4 /\
  Part001.curMenuSel (Part001.encRotate CLOCKWISE (at_sel Part001.Frequency)) =
  Part001.curMenuSel (Part001.encRotate COUNTERCLOCKWISE (at_sel Part001.Frequency)).
Proof. cbv zeta. repeat split; reflexivity. Qed.

End NavigationFacts.

(** ** Output control *)

Module OutputFacts.

Import AVRFacts Part000.

Lemma toggleOutput_outputStat (s : State) :
  outputStat (toggleOutput s) = match outputStat s with OFF => ON | ON => OFF end.
Proof.
  unfold toggleOutput, setADSigMode.
  destruct (outputStat s); cbn [outputStat with_outputStat]; [| reflexivity].
  cbn [settings with_outputStat].
  destruct (_ =? SIN); [reflexivity |].
  destruct (_ =? CLK); [reflexivity |].
  destruct (_ =? TRI); reflexivity.
Qed.

Lemma toggleOutput_settings (s : State) : settings (toggleOutput s) = settings s.
Proof.
  unfold toggleOutput, setADSigMode.
  destruct (outputStat s); cbn [outputStat with_outputStat]; [| reflexivity].
  cbn [settings with_outputStat].
  destruct (_ =? SIN); [reflexivity |].
  destruct (_ =? CLK); [reflexivity |].
  destruct (_ =? TRI); reflexivity.
Qed.

(** C9.  With the output off, one toggle switches it on and sends the
    current waveform as a mode command ([SIN] gives [MODE_SINE], [CLK] gives
    [MODE_SQUARE1], [TRI] gives [MODE_TRIANGLE]); a second toggle switches it
    off again and sends [MODE_OFF]. *)
Theorem toggle_on_then_off (s : State) :
  outputStat s = OFF ->
  waveform (settings s) = SIN \/ waveform (settings s) = CLK \/
  waveform (settings s) = TRI ->
  let on := toggleOutput s in
  let off := toggleOutput on in
  outputStat on = ON /\
  sigGen on = sigGen s ++
    [setMode (if waveform (settings s) =? SIN then MODE_SINE
              else if waveform (settings s) =? CLK then MODE_SQUARE1
              else MODE_TRIANGLE)] /\
  (waveform (settings s) = SIN -> sigGen on = sigGen s ++ [setMode MODE_SINE]) /\
  outputStat off = OFF /\
  sigGen off = sigGen on ++ [setMode MODE_OFF] /\
  settings off = settings s.
Proof.
  intros Hoff Hw on off.
  assert (Hon : on = setADSigMode (waveform (settings s)) (with_outputStat ON s)).
  { unfold on, toggleOutput. rewrite Hoff. reflexivity. }
  assert (Hcall : on =
            call (setMode (if waveform (settings s) =? SIN then MODE_SINE
                           else if waveform (settings s) =? CLK then MODE_SQUARE1
                           else MODE_TRIANGLE)) (with_outputStat ON s)).
  { rewrite Hon. unfold setADSigMode.
    destruct Hw as [-> | [-> | ->]]; reflexivity. }
  assert (Hoff2 : off = call (setMode MODE_OFF) (with_outputStat OFF on)).
  { unfold off, toggleOutput. rewrite Hcall. reflexivity. }
  split; [rewrite Hcall; reflexivity |].
  split; [rewrite Hcall; reflexivity |].
  split; [intros Hsin; rewrite Hcall, Hsin; reflexivity |].
  split; [rewrite Hoff2; reflexivity |].
  split; [rewrite Hoff2; reflexivity |].
  rewrite Hoff2, Hcall. reflexivity.
Qed.

(** After start-up the output is off and the waveform is [SIN]. *)
Lemma toggle_on_then_off_witness :
  let s := setup false (initial_state false erased_eeprom) in
  let on := toggleOutput s in
  let off := toggleOutput on in
  outputStat on = ON /\
  sigGen on = sigGen s ++ [setMode MODE_SINE] /\
  (waveform (settings s) = SIN -> sigGen on = sigGen s ++ [setMode MODE_SINE]) /\
  outputStat off = OFF /\
  sigGen off = sigGen on ++ [setMode MODE_OFF] /\
  settings off = settings s.
Proof.
  apply (toggle_on_then_off (setup false (initial_state false erased_eeprom))).
  - reflexivity.
  - left. reflexivity.
Defined.

(** A click in the home frame is a toggle. *)
Lemma encPress_home (s : State) :
  curDispFrame s = HOME_PAGE -> encPress s = toggleOutput s.
Proof. intros H. unfold encPress. rewrite H. reflexivity. Qed.

(** *** Waveform selection *)

(** The waveform moves one place around [SIN], [CLK], [TRI]. *)
Lemma function_rotation_waveform {libm : Libm} (d : Direction) (t : Z) (s : State) :
  curDispFrame s = SETTING ->
  curMenuSel s = Function ->
  0 <= waveform (settings s) <= 2 ->
  waveform (settings (encRotate d t s)) =
  match d with
  | CLOCKWISE => (waveform (settings s) + 1) mod 3
  | COUNTERCLOCKWISE => (waveform (settings s) + 2) mod 3
  | NOROTATION => waveform (settings s)
  end.
Proof.
  intros Hframe Hsel Hw. unfold encRotate. rewrite Hframe.
  unfold handleSettingChange. rewrite Hsel. cbn [Z.eqb Function].
  unfold setWaveform. rewrite toggleOutput_settings.
  cbn [settings with_settings waveform set_waveform].
  assert (Hcases : waveform (settings s) = 0 \/ waveform (settings s) = 1 \/
                   waveform (settings s) = 2) by lia.
  destruct d, Hcases as [E | [E | E]]; rewrite E; reflexivity.
Qed.

(** Every rotate event in the waveform selector flips the output status. *)
Lemma function_rotation_toggles_output {libm : Libm} (d : Direction) (t : Z) (s : State) :
  curDispFrame s = SETTING ->
  curMenuSel s = Function ->
  outputStat (encRotate d t s) = match outputStat s with OFF => ON | ON => OFF end.
Proof.
  intros Hframe Hsel. unfold encRotate. rewrite Hframe.
  unfold handleSettingChange. rewrite Hsel. cbn [Z.eqb Function].
  unfold setWaveform. rewrite toggleOutput_outputStat. reflexivity.
Qed.

(** C8, at a state reached from start-up by a click (output on), a long
    press (menu) and a click (waveform selector): one clockwise rotate event
    moves the waveform from [SIN] to [CLK], but it switches the output off
    and sends [MODE_OFF] where the square-wave mode was due. *)
Theorem function_rotation_switches_output_off :
  let quiet ev t := mkLoopInput ev t 0 NOROTATION t in
  let s := @run exact_libm
             [quiet (Some Click) 3000; quiet (Some LongPressStart) 4000;
              quiet (Some Click) 5000]
             (setup false (initial_state false erased_eeprom)) in
  let s' := @run exact_libm [mkLoopInput None 6000 1 CLOCKWISE 6000] s in
  (curDispFrame s = SETTING /\ curMenuSel s = Function /\
   outputStat s = ON /\ waveform (settings s) = SIN) /\
  waveform (settings s') = CLK /\
  outputStat s' = OFF /\
  sigGen s' = sigGen s ++ [setMode MODE_OFF].
Proof. cbv zeta. repeat split; reflexivity. Qed.

End OutputFacts.

(** ** The persisted settings record *)

Module SettingsStoreFacts.

Import AVRFacts Crc8 Part000.

Lemma le_bytes_4 (z : Z) :
  le_bytes 4 z =
  [u8 (Z.shiftr z 0); u8 (Z.shiftr z 8); u8 (Z.shiftr z 16); u8 (Z.shiftr z 24)].
Proof. reflexivity. Qed.

(** An [unsigned long] is recovered from its four bytes. *)
Lemma le_value_le_bytes (z : Z) : is_u32 z -> le_value (le_bytes 4 z) = z.
Proof.
  unfold is_u32. change (2 ^ 32) with 4294967296. intros Hz.
  rewrite le_bytes_4. cbn [le_value]. unfold u8, wrap.
  rewrite !Z.shiftr_div_pow2 by lia.
  change (2 ^ 0) with 1. change (2 ^ 8) with 256.
  change (2 ^ 16) with 65536. change (2 ^ 24) with 16777216.
  Z.to_euclidean_division_equations. lia.
Qed.

(** The struct is recovered from its memory image. *)
Lemma settings_of_bytes_settings_bytes (st : Settings) :
  settings_in_range st -> settings_of_bytes (settings_bytes st) = st.
Proof.
  intros (H0 & H1 & H2 & _ & _).
  destruct st as [f0 f1 step w c k]. cbn [frequency_0 frequency_1 freqStep] in *.
  unfold settings_of_bytes, settings_bytes.
  cbn [frequency_0 frequency_1 freqStep waveform channel checksum].
  rewrite !le_bytes_4. cbn [app firstn skipn nth].
  rewrite <- !le_bytes_4.
  rewrite !le_value_le_bytes by assumption.
  destruct c; reflexivity.
Qed.

(** Reading back a block just written. *)
Lemma read_updated_block (b0 b1 b2 b3 b4 b5 b6 b7 b8 b9 b10 b11 b12 b13 b14 : Z)
  (rom : Z -> Z) :
  eeprom_read_block
    (eeprom_update_block [b0; b1; b2; b3; b4; b5; b6; b7; b8; b9; b10; b11; b12; b13; b14]
       EEPROM_ADDRESS_SHIFT sizeof_Settings rom)
    EEPROM_ADDRESS_SHIFT sizeof_Settings =
  [b0; b1; b2; b3; b4; b5; b6; b7; b8; b9; b10; b11; b12; b13; b14].
Proof. reflexivity. Qed.

Lemma settings_bytes_cells (st : Settings) :
  settings_bytes st =
  [u8 (Z.shiftr (frequency_0 st) 0); u8 (Z.shiftr (frequency_0 st) 8);
   u8 (Z.shiftr (frequency_0 st) 16); u8 (Z.shiftr (frequency_0 st) 24);
   u8 (Z.shiftr (frequency_1 st) 0); u8 (Z.shiftr (frequency_1 st) 8);
   u8 (Z.shiftr (frequency_1 st) 16); u8 (Z.shiftr (frequency_1 st) 24);
   u8 (Z.shiftr (freqStep st) 0); u8 (Z.shiftr (freqStep st) 8);
   u8 (Z.shiftr (freqStep st) 16); u8 (Z.shiftr (freqStep st) 24);
   waveform st; if channel st then 1 else 0; checksum st].
Proof. reflexivity. Qed.

Lemma read_written_settings (st : Settings) (rom : Z -> Z) :
  eeprom_read_block
    (eeprom_update_block (settings_bytes st) EEPROM_ADDRESS_SHIFT sizeof_Settings rom)
    EEPROM_ADDRESS_SHIFT sizeof_Settings = settings_bytes st.
Proof. rewrite settings_bytes_cells. apply read_updated_block. Qed.

Lemma read_block_ext (rom rom' : Z -> Z) :
  (forall a, 0 <= a < 15 -> rom' a = rom a) ->
  eeprom_read_block rom' EEPROM_ADDRESS_SHIFT sizeof_Settings =
  eeprom_read_block rom EEPROM_ADDRESS_SHIFT sizeof_Settings.
Proof.
  intros Hsame. unfold eeprom_read_block. apply map_ext_in.
  intros i Hi. apply in_seq in Hi. apply Hsame.
  unfold EEPROM_ADDRESS_SHIFT, sizeof_Settings in *. lia.
Qed.

(** The checksum byte does not enter the checksum. *)
Lemma checksum_skips_last_byte (st : Settings) (k : Z) :
  crc8block (settings_bytes (set_checksum k st)) (sizeof_Settings - 1) =
  crc8block (settings_bytes st) (sizeof_Settings - 1).
Proof.
  rewrite !Crc8Facts.crc8block_is_reference_checksum_on_prefix.
  rewrite !settings_bytes_cells. reflexivity.
Qed.

(** C7.  For every settings record, [writeToEEPROM] stores the record with
    its checksum recomputed over all bytes but the checksum byte, and a
    [readFromEEPROM] over storage that still holds the bytes written succeeds
    (the recomputed checksum equals the stored one) and yields the record that
    was saved: the fields of the original, with the fresh checksum. *)
Theorem save_then_load_roundtrip (s s' : State) :
  settings_in_range (settings s) ->
  (forall a, 0 <= a < 15 -> eeprom s' a = eeprom (writeToEEPROM s) a) ->
  let saved := settings (writeToEEPROM s) in
  saved = set_checksum (crc8block (settings_bytes (settings s)) (sizeof_Settings - 1))
            (settings s) /\
  stored_record_valid (eeprom s') = true /\
  readFromEEPROM s' = (true, with_settings saved s').
Proof.
  intros Hrange Hsame saved.
  set (crc := crc8block (settings_bytes (settings s)) (sizeof_Settings - 1)).
  assert (Hsaved : saved = set_checksum crc (settings s)) by reflexivity.
  assert (Himage : eeprom_read_block (eeprom s') EEPROM_ADDRESS_SHIFT sizeof_Settings =
                   settings_bytes saved).
  { rewrite (read_block_ext _ _ Hsame). unfold writeToEEPROM.
    cbn [eeprom with_eeprom]. fold crc. cbn [settings with_settings].
    rewrite read_written_settings. rewrite Hsaved. reflexivity. }
  assert (Hcrc : crc8block (settings_bytes saved) (sizeof_Settings - 1) = crc).
  { rewrite Hsaved. apply checksum_skips_last_byte. }
  assert (Hback : settings_of_bytes (settings_bytes saved) = saved).
  { apply settings_of_bytes_settings_bytes. rewrite Hsaved.
    destruct Hrange as (H0 & H1 & H2 & H3 & _).
    unfold settings_in_range.
    cbn [frequency_0 frequency_1 freqStep waveform checksum set_checksum].
    refine (conj H0 (conj H1 (conj H2 (conj H3 _)))).
    apply Crc8Facts.crc8block_range. }
  split; [exact Hsaved |].
  split.
  - unfold stored_record_valid. rewrite Himage, Hcrc.
    rewrite Hsaved, settings_bytes_cells. cbn [nth checksum set_checksum].
    apply Z.eqb_refl.
  - unfold readFromEEPROM. rewrite Himage, Hcrc, Hback.
    cbn [settings with_settings]. rewrite Hsaved. cbn [checksum set_checksum].
    rewrite Z.eqb_refl. reflexivity.
Qed.

(** Saving the start-up settings of the sketch and loading them after a
    restart. *)
Lemma save_then_load_roundtrip_witness :
  let s := setup false (initial_state false erased_eeprom) in
  let s' := initial_state true (eeprom (writeToEEPROM s)) in
  let saved := settings (writeToEEPROM s) in
  saved = set_checksum (crc8block (settings_bytes (settings s)) (sizeof_Settings - 1))
            (settings s) /\
  stored_record_valid (eeprom s') = true /\
  readFromEEPROM s' = (true, with_settings saved s').
Proof.
  apply (save_then_load_roundtrip
           (setup false (initial_state false erased_eeprom))
           (initial_state true
              (eeprom (writeToEEPROM (setup false (initial_state false erased_eeprom)))))).
  - unfold settings_in_range, is_u32, is_u8. vm_compute.
    repeat split; discriminate.
  - intros a Ha. reflexivity.
Defined.

(** *** Recovery at start-up *)

Lemma resetSettings_settings (s : State) :
  settings (resetSettings s) =
  mkSettings (channelFreqs 1) (frequency_1 (settings s)) encFreqStep CLK false
    (checksum (settings s)).
Proof. reflexivity. Qed.

(** C4, on a factory-fresh EEPROM (every byte 0xFF), whose record fails the
    integrity check.  [setup] saves a record with a valid checksum, but the
    record is not the factory configuration of the initializer: channel 0
    holds 1 kHz (the default of channel 1), channel 1 keeps the bytes read
    from the corrupted record, and the waveform is [CLK]. *)
Theorem recovery_from_erased_eeprom :
  let s := setup true (initial_state true erased_eeprom) in
  stored_record_valid erased_eeprom = false /\
  settings s = mkSettings 1000 4294967295 1000 CLK false 167 /\
  stored_record_valid (eeprom s) = true /\
  initial_settings false = mkSettings 10000 1000 1000 SIN false 0.
Proof. cbv zeta. repeat split; vm_compute; reflexivity. Qed.

End SettingsStoreFacts.

(** ** The step editor *)

Module StepEditorFacts.

Import AVRFacts Part000.

(** *** Conversions of [double] values *)

Lemma truncate_exact (x : Q) (k : Z) : (x == inject_Z k)%Q -> truncate x = k.
Proof.
  destruct x as [n d]. unfold Qeq, truncate, inject_Z. cbn [Qnum Qden].
  intros H. rewrite Z.mul_1_r in H. subst n.
  apply Z.quot_mul. discriminate.
Qed.

Lemma truncate_between (x : Q) (k : Z) :
  0 <= k -> (inject_Z k <= x)%Q -> (x < inject_Z (k + 1))%Q -> truncate x = k.
Proof.
  destruct x as [n d]. unfold Qle, Qlt, truncate, inject_Z. cbn [Qnum Qden].
  intros Hk Hlo Hhi. rewrite Z.mul_1_r in Hlo, Hhi.
  assert (Hn : 0 <= n) by nia.
  rewrite Z.quot_div_nonneg by lia.
  symmetry. apply (Z.div_unique n (Z.pos d) k (n - k * Z.pos d)); lia.
Qed.

(** [round] recovers an integer from a [double] less than one half away. *)
Lemma round_near (x : Q) (k : Z) :
  1 <= k ->
  (inject_Z k - (1 # 2) < x)%Q -> (x < inject_Z k + (1 # 2))%Q -> round x = k.
Proof.
  intros Hk Hlo Hhi. unfold round.
  assert (Hpos : Qle_bool 0 x = true).
  { apply Qle_bool_iff. apply Qlt_le_weak. eapply Qle_lt_trans; [| exact Hlo].
    destruct x as [n d]. unfold Qle, Qminus, Qplus, Qopp, inject_Z. cbn. lia. }
  rewrite Hpos. apply truncate_between; [lia | |].
  - destruct x as [n d]. unfold Qle, Qlt, Qminus, Qplus, Qopp, inject_Z in *.
    cbn in *. lia.
  - destruct x as [n d]. unfold Qle, Qlt, Qminus, Qplus, Qopp, inject_Z in *.
    cbn in *. lia.
Qed.

Section Accurate.
Context {libm : Libm} {accurate : LibmAccurate libm}.

Lemma log10_index (k : Z) : 0 <= k <= 5 -> double_to_u16 (log10 (10 ^ k)) = k.
Proof.
  intros Hk. unfold double_to_u16.
  rewrite (truncate_exact _ k) by (apply log10_pow10; exact Hk).
  apply u16_small. lia.
Qed.

Lemma below_top_index (k : Z) :
  0 <= k <= 5 ->
  (if Qlt_le_dec (inject_Z k) (log10 maxFreqStep) then true else false) = (k <? 5).
Proof.
  intros Hk. change maxFreqStep with (10 ^ 5).
  pose proof (log10_pow10 5 ltac:(lia)) as Htop.
  destruct (Qlt_le_dec (inject_Z k) (log10 (10 ^ 5))) as [Hlt | Hle];
    rewrite Htop in *; symmetry.
  - apply Z.ltb_lt. rewrite <- Zlt_Qlt in Hlt. exact Hlt.
  - apply Z.ltb_ge. rewrite <- Zle_Qle in Hle. exact Hle.
Qed.

Lemma pow10_rounded (k : Z) : 0 <= k <= 5 -> u32 (round (pow 10 k)) = 10 ^ k.
Proof.
  intros Hk.
  assert (Hcases : k = 0 \/ k = 1 \/ k = 2 \/ k = 3 \/ k = 4 \/ k = 5) by lia.
  destruct (pow10_near k Hk) as [Hlo Hhi].
  rewrite (round_near _ (10 ^ k)); try assumption.
  - apply u32_small.
    destruct Hcases as [-> | [-> | [-> | [-> | [-> | ->]]]]];
      (vm_compute; split; [discriminate | reflexivity]).
  - destruct Hcases as [-> | [-> | [-> | [-> | [-> | ->]]]]]; vm_compute; discriminate.
Qed.

(** One rotation in the step editor moves the exponent by one, between 0
    and 5. *)
Lemma changeStep_exponent (d : Direction) (s : State) (k : Z) :
  0 <= k <= 5 ->
  freqStep (settings s) = 10 ^ k ->
  freqStep (settings (changeStep d s)) =
  10 ^ (match d with
        | CLOCKWISE => Z.min (k + 1) 5
        | _ => Z.max (k - 1) 0
        end).
Proof.
  intros Hk Hstep. unfold changeStep.
  cbn [settings with_settings freqStep set_freqStep].
  rewrite Hstep, log10_index by exact Hk.
  assert (Hdown : (if k >? 1 then k - 1 else 0) = Z.max (k - 1) 0).
  { rewrite Z.gtb_ltb. destruct (Z.ltb_spec 1 k); lia. }
  destruct d.
  - rewrite Hdown. apply pow10_rounded. lia.
  - pose proof (below_top_index k Hk) as Htop.
    destruct (Qlt_le_dec (inject_Z k) (log10 maxFreqStep)).
    + symmetry in Htop. apply Z.ltb_lt in Htop.
      rewrite u16_small by lia.
      replace (Z.min (k + 1) 5) with (k + 1) by lia.
      apply pow10_rounded. lia.
    + symmetry in Htop. apply Z.ltb_ge in Htop.
      change maxFreqStep with (10 ^ 5). rewrite log10_index by lia.
      replace (Z.min (k + 1) 5) with 5 by lia.
      apply pow10_rounded. lia.
  - rewrite Hdown. apply pow10_rounded. lia.
Qed.

Lemma changeStep_frame (d : Direction) (s : State) :
  curDispFrame (changeStep d s) = curDispFrame s /\
  curMenuSel (changeStep d s) = curMenuSel s /\
  curRow (changeStep d s) = curRow s.
Proof. repeat split. Qed.

(** In the step editor a rotate event is handled by [changeStep]. *)
Lemma encRotate_step_editor (d : Direction) (t : Z) (s : State) :
  curDispFrame s = SETTING -> curMenuSel s = Frequency -> curRow s = 1 ->
  encRotate d t s = changeStep d s.
Proof.
  intros Hframe Hsel Hrow. unfold encRotate, handleSettingChange.
  rewrite Hframe, Hsel, Hrow. reflexivity.
Qed.

Lemma step_editor_turns (d : Direction) (evs : list (Direction * Z)) : forall s k,
  curDispFrame s = SETTING -> curMenuSel s = Frequency -> curRow s = 1 ->
  0 <= k <= 5 ->
  freqStep (settings s) = 10 ^ k ->
  d <> NOROTATION ->
  all_turn d evs ->
  let s' := rotations evs s in
  (curDispFrame s' = SETTING /\ curMenuSel s' = Frequency /\ curRow s' = 1) /\
  freqStep (settings s') =
  10 ^ (match d with
        | CLOCKWISE => Z.min (k + Z.of_nat (length evs)) 5
        | _ => Z.max (k - Z.of_nat (length evs)) 0
        end).
Proof.
  induction evs as [| [d' t] evs IH]; intros s k Hframe Hsel Hrow Hk Hstep Hd Hall.
  - cbn [rotations fold_left length Z.of_nat]. split; [auto |].
    rewrite Hstep. f_equal. destruct d; lia.
  - inversion Hall as [| ev evs' Hhead Htail]; subst. cbn [fst] in *.
    cbn [rotations fold_left fst snd].
    rewrite encRotate_step_editor by assumption.
    pose proof (changeStep_exponent (fst (d', t)) s k Hk Hstep) as Hone.
    destruct (changeStep_frame (fst (d', t)) s) as (F1 & F2 & F3).
    cbn [fst] in *.
    set (k' := match d' with
               | CLOCKWISE => Z.min (k + 1) 5
               | _ => Z.max (k - 1) 0
               end) in *.
    assert (Hk' : 0 <= k' <= 5) by (unfold k'; destruct d'; lia).
    rewrite Hframe in F1. rewrite Hsel in F2. rewrite Hrow in F3.
    specialize (IH (changeStep d' s) k' F1 F2 F3 Hk' Hone Hd Htail).
    cbv zeta in IH. destruct IH as [Hkeep Hfinal].
    split; [exact Hkeep |].
    unfold rotations in Hfinal. rewrite Hfinal. f_equal.
    unfold k'. cbn [length]. destruct d'; try contradiction; lia.
Qed.

End Accurate.

(** X17.  With a math library that is accurate in the sense of
    [LibmAccurate] ([log10] exact on the powers of ten up to [maxFreqStep],
    [pow] off by less than one half), in the step editor (Setting frame,
    Frequency selected, row 1), starting from step 1: clockwise rotate events
    give 10, 100, 1000, 10000, 100000 in that order and further ones stay at
    [maxFreqStep] = 100000; counterclockwise rotate events after them walk
    back through 10000, 1000, 100, 10 to 1 and never below; every value is a
    power of ten. *)
Theorem step_editor_sequence
  (libm : Libm) (accurate : LibmAccurate libm)
  (s : State) (cw ccw : list (Direction * Z)) :
  curDispFrame s = SETTING -> curMenuSel s = Frequency -> curRow s = 1 ->
  freqStep (settings s) = 1 ->
  all_turn CLOCKWISE cw ->
  all_turn COUNTERCLOCKWISE ccw ->
  freqStep (settings (rotations cw s)) = 10 ^ Z.min (Z.of_nat (length cw)) 5 /\
  freqStep (settings (rotations ccw (rotations cw s))) =
    10 ^ Z.max (Z.min (Z.of_nat (length cw)) 5 - Z.of_nat (length ccw)) 0 /\
  1 <= freqStep (settings (rotations ccw (rotations cw s))) <= maxFreqStep.
Proof.
  intros Hframe Hsel Hrow Hstep Hcw Hccw.
  destruct (step_editor_turns CLOCKWISE cw s 0 Hframe Hsel Hrow ltac:(lia) Hstep
              ltac:(discriminate) Hcw) as [(F1 & F2 & F3) Hup].
  cbn [Z.add] in Hup.
  assert (Hk : 0 <= Z.min (Z.of_nat (length cw)) 5 <= 5) by lia.
  destruct (step_editor_turns COUNTERCLOCKWISE ccw (rotations cw s) _ F1 F2 F3 Hk Hup
              ltac:(discriminate) Hccw) as [_ Hdown].
  split; [exact Hup |]. split; [exact Hdown |].
  rewrite Hdown.
  set (k := Z.max (Z.min (Z.of_nat (length cw)) 5 - Z.of_nat (length ccw)) 0).
  assert (Hcases : k = 0 \/ k = 1 \/ k = 2 \/ k = 3 \/ k = 4 \/ k = 5) by lia.
  destruct Hcases as [-> | [-> | [-> | [-> | [-> | ->]]]]];
    (vm_compute; split; discriminate).
Qed.

(** The exact math library is accurate. *)
Lemma exact_libm_accurate : LibmAccurate exact_libm.
Proof.
  split; intros k Hk;
    assert (Hcases : k = 0 \/ k = 1 \/ k = 2 \/ k = 3 \/ k = 4 \/ k = 5) by lia;
    destruct Hcases as [-> | [-> | [-> | [-> | [-> | ->]]]]].
  all: try (vm_compute; reflexivity).
  all: split; vm_compute; reflexivity.
Qed.

End StepEditorFacts.

Module StepEditorWitness.

Import Part000.

(** Seven clockwise then seven counterclockwise rotate events from step 1,
    with the exact math library. *)
Lemma step_editor_sequence_witness :
  let s := with_curRow 1 (with_curMenuSel Frequency (with_curDispFrame SETTING
             (with_settings (set_freqStep 1 (initial_settings false))
                (initial_state false erased_eeprom)))) in
  let cw := repeat (CLOCKWISE, 0) 7 in
  let ccw := repeat (COUNTERCLOCKWISE, 0) 7 in
  freqStep (settings (@rotations exact_libm cw s)) = 10 ^ Z.min (Z.of_nat (length cw)) 5 /\
  freqStep (settings (@rotations exact_libm ccw (@rotations exact_libm cw s))) =
    10 ^ Z.max (Z.min (Z.of_nat (length cw)) 5 - Z.of_nat (length ccw)) 0 /\
  1 <= freqStep (settings (@rotations exact_libm ccw (@rotations exact_libm cw s)))
    <= maxFreqStep.
Proof.
  apply (StepEditorFacts.step_editor_sequence exact_libm
           StepEditorFacts.exact_libm_accurate).
  - reflexivity.
  - reflexivity.
  - reflexivity.
  - reflexivity.
  - repeat constructor.
  - repeat constructor.
Defined.

(** The values shown by the editor, rotation by rotation. *)
Example step_editor_values :
  let s := with_curRow 1 (with_curMenuSel Frequency (with_curDispFrame SETTING
             (with_settings (set_freqStep 1 (initial_settings false))
                (initial_state false erased_eeprom)))) in
  let turn d n := @rotations exact_libm (repeat (d, 0) n) in
  map (fun n => freqStep (settings (turn CLOCKWISE n s))) [1; 2; 3; 4; 5; 6; 7]%nat =
    [10; 100; 1000; 10000; 100000; 100000; 100000] /\
  map (fun n => freqStep (settings (turn COUNTERCLOCKWISE n (turn CLOCKWISE 5%nat s))))
      [1; 2; 3; 4; 5; 6; 7]%nat =
    [10000; 1000; 100; 10; 1; 1; 1].
Proof. cbv zeta. split; vm_compute; reflexivity. Qed.

(** The editor is sensitive to the last bit of [log10]: [changeStep]
    truncates the logarithm, so with [log10 1000] one unit in the last place
    low the clockwise sequence from step 1 stalls at 1000. *)
Example step_editor_values_with_low_log10 :
  let s := with_curRow 1 (with_curMenuSel Frequency (with_curDispFrame SETTING
             (with_settings (set_freqStep 1 (initial_settings false))
                (initial_state false erased_eeprom)))) in
  let turn d n := @rotations ulp_low_libm (repeat (d, 0) n) in
  map (fun n => freqStep (settings (turn CLOCKWISE n s))) [1; 2; 3; 4; 5; 6; 7]%nat =
    [10; 100; 1000; 1000; 1000; 1000; 1000].
Proof. cbv zeta. vm_compute. reflexivity. Qed.

End StepEditorWitness.

(** ** Start-up and the first commit *)

Module StartupFacts.

Import AVRFacts Part000.

Lemma count_setFrequency_app (tr : list SigGenCall) (c : SigGenCall) :
  count_setFrequency (tr ++ [c]) =
  (count_setFrequency tr + (if is_setFrequency c then 1 else 0))%nat.
Proof.
  unfold count_setFrequency. rewrite filter_app, length_app. cbn [filter].
  destruct (is_setFrequency c); reflexivity.
Qed.

Ltac step_through :=
  repeat match goal with
         | |- context [match ?x with _ => _ end] => destruct x eqn:?
         end;
  cbn [isFrequencyDirty lastFreqUpdate encPos sigGen call
       with_settings with_isDispDirty with_isFrequencyDirty with_outputStat
       with_curMenuSel with_lastFreqUpdate with_curDispFrame with_curRow
       with_encPos with_eeprom];
  rewrite ?count_setFrequency_app; cbn [is_setFrequency]; rewrite ?Nat.add_0_r;
  try reflexivity.

Lemma toggleOutput_regulator (s : State) : regulator (toggleOutput s) = regulator s.
Proof. unfold regulator, toggleOutput, setADSigMode. step_through. Qed.

Lemma toggleOutput_flags (s : State) :
  isFrequencyDirty (toggleOutput s) = isFrequencyDirty s /\
  lastFreqUpdate (toggleOutput s) = lastFreqUpdate s /\
  encPos (toggleOutput s) = encPos s.
Proof.
  pose proof (toggleOutput_regulator s) as Hreg. unfold regulator in Hreg.
  injection Hreg as Hd Hl Hp _. auto.
Qed.

(** No gesture stages or commits a frequency. *)
Lemma encBtn_tick_regulator (ev : option ButtonEvent) (s : State) :
  regulator (encBtn_tick ev s) = regulator s.
Proof.
  destruct ev as [[| |] |]; cbn [encBtn_tick]; [| | | reflexivity].
  - unfold encPress. destruct (curDispFrame s); [apply toggleOutput_regulator | |];
      unfold regulator; step_through.
  - unfold regulator, encDoublePress, setADChannel. step_through.
  - unfold regulator, encLongPress. step_through.
Qed.

(** [setup] leaves the flag as initialised and the clock record at zero. *)
Lemma setup_regulator (E : bool) (rom : Z -> Z) :
  let s0 := setup E (initial_state E rom) in
  isFrequencyDirty s0 = true /\ lastFreqUpdate s0 = 0 /\ encPos s0 = 0.
Proof.
  cbv zeta. unfold setup.
  set (s1 := if E then _ else _).
  assert (H1 : isFrequencyDirty s1 = true /\ lastFreqUpdate s1 = 0 /\ encPos s1 = 0).
  { unfold s1. destruct E; [| repeat split].
    unfold readFromEEPROM. destruct (negb _); repeat split. }
  destruct H1 as (Hd & Hl & Hp).
  match goal with
  | |- context [toggleOutput ?x] =>
      destruct (toggleOutput_flags x) as (Hd' & Hl' & Hp')
  end.
  rewrite Hd', Hl', Hp'. unfold setADChannel.
  destruct (channel _); cbn [isFrequencyDirty lastFreqUpdate encPos call setADFreq];
    auto.
Qed.

Section Loop.
Context {libm : Libm}.

(** A pass before the deadline, encoder at rest. *)
Lemma loop_before_deadline (i : LoopInput) (s : State) :
  no_rotation i ->
  0 <= now i <= freqUpdateDelay ->
  isFrequencyDirty s = true -> lastFreqUpdate s = 0 -> encPos s = 0 ->
  regulator (loop i s) = regulator s.
Proof.
  intros Hrest Hnow Hd Hl Hp. unfold loop.
  pose proof (encBtn_tick_regulator (button i) s) as Hbtn.
  set (s1 := encBtn_tick (button i) s) in *.
  unfold regulator in Hbtn. injection Hbtn as Hd1 Hl1 Hp1 Hc1.
  rewrite FrequencyFacts.tick_before_deadline.
  2:{ rewrite Hl1, Hl, Z.sub_0_r. unfold freqUpdateDelay in *.
      rewrite u32_small by (change (2 ^ 32) with 4294967296; lia). lia. }
  rewrite Hp1, Hp, Hrest. cbn [Z.eqb].
  unfold regulator, updateDisplay.
  destruct (isDispDirty s1);
    cbn [isFrequencyDirty lastFreqUpdate encPos sigGen with_isDispDirty];
    congruence.
Qed.

(** The pass after the deadline commits once. *)
Lemma loop_after_deadline (i : LoopInput) (s : State) :
  no_rotation i ->
  freqUpdateDelay < now i < 2 ^ 32 ->
  isFrequencyDirty s = true -> lastFreqUpdate s = 0 -> encPos s = 0 ->
  let pressed := encBtn_tick (button i) s in
  sigGen (loop i s) =
    sigGen pressed ++ [setFrequency (chan_of (channel (settings pressed)))
                                    (active_frequency pressed)] /\
  isFrequencyDirty (loop i s) = false /\ encPos (loop i s) = 0.
Proof.
  intros Hrest Hnow Hd Hl Hp pressed. unfold loop. fold pressed.
  pose proof (encBtn_tick_regulator (button i) s) as Hbtn. fold pressed in Hbtn.
  unfold regulator in Hbtn. injection Hbtn as Hd1 Hl1 Hp1 Hc1.
  rewrite FrequencyFacts.tick_after_deadline.
  2:{ congruence. }
  2:{ rewrite Hl1, Hl, Z.sub_0_r. unfold freqUpdateDelay in *.
      rewrite u32_small by lia. lia. }
  cbn [encPos with_isFrequencyDirty setADFreq call].
  rewrite Hp1, Hp, Hrest. cbn [Z.eqb].
  unfold updateDisplay. cbn [isDispDirty with_isFrequencyDirty setADFreq call].
  destruct (isDispDirty pressed);
    (split; [reflexivity | split; [reflexivity |]];
     change (encPos pressed = 0); congruence).
Qed.

(** A pass with nothing staged, encoder at rest. *)
Lemma loop_when_clean (i : LoopInput) (s : State) :
  no_rotation i ->
  isFrequencyDirty s = false -> encPos s = 0 ->
  isFrequencyDirty (loop i s) = false /\ encPos (loop i s) = 0 /\
  count_setFrequency (sigGen (loop i s)) = count_setFrequency (sigGen s).
Proof.
  intros Hrest Hd Hp. unfold loop.
  pose proof (encBtn_tick_regulator (button i) s) as Hbtn.
  set (s1 := encBtn_tick (button i) s) in *.
  unfold regulator in Hbtn. injection Hbtn as Hd1 Hl1 Hp1 Hc1.
  rewrite FrequencyFacts.tick_when_clean by congruence.
  rewrite Hp1, Hp, Hrest. cbn [Z.eqb].
  unfold updateDisplay.
  destruct (isDispDirty s1);
    cbn [isFrequencyDirty encPos sigGen with_isDispDirty]; repeat split; congruence.
Qed.

Lemma run_before_deadline (early : list LoopInput) : forall s,
  Forall no_rotation early ->
  Forall (fun j => 0 <= now j <= freqUpdateDelay) early ->
  isFrequencyDirty s = true -> lastFreqUpdate s = 0 -> encPos s = 0 ->
  regulator (run early s) = regulator s.
Proof.
  induction early as [| i early IH]; intros s Hrest Hnow Hd Hl Hp.
  - reflexivity.
  - inversion Hrest as [| i0 early0 Hrest_i Hrest_tl];
      inversion Hnow as [| i1 early1 Hnow_i Hnow_tl]; subst. cbn [run fold_left].
    pose proof (loop_before_deadline i s Hrest_i Hnow_i Hd Hl Hp) as Hone.
    fold (run early (loop i s)).
    assert (Hflags : isFrequencyDirty (loop i s) = true /\
                     lastFreqUpdate (loop i s) = 0 /\ encPos (loop i s) = 0).
    { unfold regulator in Hone. injection Hone as E1 E2 E3 E4.
      repeat split; congruence. }
    destruct Hflags as (E1 & E2 & E3).
    rewrite IH by assumption. exact Hone.
Qed.

Lemma run_when_clean (late : list LoopInput) : forall s,
  Forall no_rotation late ->
  isFrequencyDirty s = false -> encPos s = 0 ->
  count_setFrequency (sigGen (run late s)) = count_setFrequency (sigGen s).
Proof.
  induction late as [| i late IH]; intros s Hrest Hd Hp.
  - reflexivity.
  - inversion Hrest as [| i0 late0 Hrest_i Hrest_tl]; subst. cbn [run fold_left].
    destruct (loop_when_clean i s Hrest_i Hd Hp) as (Hd' & Hp' & Hc').
    fold (run late (loop i s)).
    rewrite IH by assumption. exact Hc'.
Qed.

End Loop.

(** C10.  The frequency-dirty flag is true in the initial program state and
    still true after [setup]; so, with no rotation at all, the passes of
    [loop] up to 400 ms send no [setFrequency], the first pass later than
    400 ms sends exactly one, for the active channel and its stored frequency,
    and clears the flag, and no later pass sends another as long as nothing
    is staged.  Gestures on the button may occur throughout. *)
Theorem initial_dirty_flag_commits_once
  (libm : Libm) (E : bool) (rom : Z -> Z)
  (early : list LoopInput) (i : LoopInput) (late : list LoopInput) :
  let s0 := setup E (initial_state E rom) in
  let s1 := run early s0 in
  let pressed := encBtn_tick (button i) s1 in
  let s2 := loop i s1 in
  Forall no_rotation early ->
  Forall (fun j => 0 <= now j <= freqUpdateDelay) early ->
  no_rotation i ->
  freqUpdateDelay < now i < 2 ^ 32 ->
  Forall no_rotation late ->
  isFrequencyDirty (initial_state E rom) = true /\
  isFrequencyDirty s0 = true /\
  count_setFrequency (sigGen s1) = count_setFrequency (sigGen s0) /\
  sigGen s2 =
    sigGen pressed ++ [setFrequency (chan_of (channel (settings pressed)))
                                    (active_frequency pressed)] /\
  isFrequencyDirty s2 = false /\
  count_setFrequency (sigGen (run late s2)) = (count_setFrequency (sigGen s0) + 1)%nat.
Proof.
  intros s0 s1 pressed s2 Hearly Hnows Hrest Hnow Hlate.
  destruct (setup_regulator E rom) as (Hd0 & Hl0 & Hp0). fold s0 in Hd0, Hl0, Hp0.
  pose proof (run_before_deadline early s0 Hearly Hnows Hd0 Hl0 Hp0) as Hreg.
  fold s1 in Hreg. unfold regulator in Hreg. injection Hreg as Hd1 Hl1 Hp1 Hc1.
  destruct (loop_after_deadline i s1 Hrest Hnow
              ltac:(congruence) ltac:(congruence) ltac:(congruence))
    as (Hsig & Hd2 & Hp2).
  fold pressed in Hsig. fold s2 in Hsig, Hd2, Hp2.
  split; [reflexivity |].
  split; [exact Hd0 |].
  split; [exact Hc1 |].
  split; [exact Hsig |].
  split; [exact Hd2 |].
  rewrite (run_when_clean late s2 Hlate Hd2 Hp2).
  rewrite Hsig, count_setFrequency_app. cbn [is_setFrequency].
  pose proof (encBtn_tick_regulator (button i) s1) as Hbtn. fold pressed in Hbtn.
  unfold regulator in Hbtn. injection Hbtn as _ _ _ Hc.
  rewrite Hc, Hc1. reflexivity.
Qed.

(** Start-up without EEPROM; the first pass of [loop] runs 2 s after reset
    (the start screen), then a click and two idle passes follow. *)
Lemma initial_dirty_flag_commits_once_witness :
  let s0 := setup false (initial_state false erased_eeprom) in
  let i := mkLoopInput None 2005 0 NOROTATION 0 in
  let late := [mkLoopInput (Some Click) 2500 0 NOROTATION 0;
               mkLoopInput None 3000 0 NOROTATION 0;
               mkLoopInput None 9000 0 NOROTATION 0] in
  let s2 := @loop exact_libm i (@run exact_libm [] s0) in
  isFrequencyDirty (initial_state false erased_eeprom) = true /\
  isFrequencyDirty s0 = true /\
  count_setFrequency (sigGen (@run exact_libm [] s0)) = count_setFrequency (sigGen s0) /\
  sigGen s2 = sigGen s0 ++ [setFrequency CHAN_0 10000] /\
  isFrequencyDirty s2 = false /\
  count_setFrequency (sigGen (@run exact_libm late s2)) =
    (count_setFrequency (sigGen s0) + 1)%nat.
Proof.
  apply (initial_dirty_flag_commits_once exact_libm false erased_eeprom []
           (mkLoopInput None 2005 0 NOROTATION 0)
           [mkLoopInput (Some Click) 2500 0 NOROTATION 0;
            mkLoopInput None 3000 0 NOROTATION 0;
            mkLoopInput None 9000 0 NOROTATION 0]).
  - constructor.
  - constructor.
  - reflexivity.
  - vm_compute. split; reflexivity.
  - repeat constructor.
Defined.

End StartupFacts.

(** ** Start-up, gestures and the generator *)

Module PanelFacts.

Import AVRFacts Part000 Panel.

Ltac by_cases :=
  repeat match goal with
         | |- context [match ?x with _ => _ end] => destruct x eqn:?
         end.

(** *** Start-up *)

(** X1.  [setup] programs both channel frequencies and the active channel from
    the settings in force (loaded, reset or initialised), then leaves the
    output off, whatever the EEPROM holds. *)
Theorem setup_programs_generator_and_disables_output (E : bool) (rom : Z -> Z) :
  let s := setup E (initial_state E rom) in
  outputStat s = OFF /\
  sigGen s =
    [begin;
     setFrequency CHAN_0 (frequency_0 (settings s));
     setFrequency CHAN_1 (frequency_1 (settings s));
     setActiveFrequency (chan_of (channel (settings s)));
     setMode MODE_OFF] /\
  curDispFrame s = HOME_PAGE /\ curMenuSel s = Function.
Proof.
  cbv zeta. unfold setup.
  set (s1 := if E then _ else _).
  assert (H1 : outputStat s1 = ON /\ sigGen s1 = [] /\
               curDispFrame s1 = HOME_PAGE /\ curMenuSel s1 = Function).
  { unfold s1. destruct E; [| repeat split].
    unfold readFromEEPROM. destruct (negb _); repeat split. }
  destruct H1 as (Hout & Hsig & Hframe & Hsel).
  clearbody s1.
  destruct s1 as [st dd fd out sel last frame row pos sig cells].
  cbn [outputStat sigGen curDispFrame curMenuSel] in Hout, Hsig, Hframe, Hsel.
  subst out sig frame sel.
  destruct st as [f0 f1 step w [|] k]; cbn; auto.
Qed.

(** *** Leaving a frame *)


(** X2.  From every frame the home frame is at most two gestures away, and the
    way back touches neither the settings nor the generator. *)
Theorem home_within_two_gestures (s : State) :
  exists evs : list ButtonEvent,
    (length evs <= 2)%nat /\
    curDispFrame (gestures evs s) = HOME_PAGE /\
    settings (gestures evs s) = settings s /\
    sigGen (gestures evs s) = sigGen s /\
    outputStat (gestures evs s) = outputStat s.
Proof.
  destruct (curDispFrame s) eqn:Hframe.
  - exists []. cbn. auto.
  - exists [LongPressStart]. cbn [gestures fold_left encBtn_tick].
    unfold encLongPress. rewrite Hframe. cbn. auto.
  - destruct (curMenuSel s =? Frequency) eqn:Hsel.
    + exists [LongPressStart; LongPressStart]. cbn [gestures fold_left encBtn_tick].
      assert (Hfirst : encLongPress s =
                with_isDispDirty true (with_curRow 0 (with_curDispFrame MENU s))).
      { unfold encLongPress. rewrite Hframe, Hsel. reflexivity. }
      rewrite Hfirst. cbn. auto.
    + exists [Click; LongPressStart]. cbn [gestures fold_left encBtn_tick].
      assert (Hfirst : encPress s =
                with_isDispDirty true (with_curDispFrame MENU s)).
      { unfold encPress. rewrite Hframe, Hsel. reflexivity. }
      rewrite Hfirst. cbn. auto.
Qed.

End PanelFacts.

(** ** More on frequency regulation *)

Module RegulatorFacts.

Import AVRFacts Part000 Panel.

Lemma changeFreq_other_fields (d : Direction) (t : Z) (s : State) :
  frequency (settings (changeFreq d t s)) (negb (channel (settings s))) =
    frequency (settings s) (negb (channel (settings s))) /\
  waveform (settings (changeFreq d t s)) = waveform (settings s) /\
  outputStat (changeFreq d t s) = outputStat s /\
  curMenuSel (changeFreq d t s) = curMenuSel s /\
  curRow (changeFreq d t s) = curRow s.
Proof.
  unfold changeFreq.
  cbn [settings with_settings with_lastFreqUpdate with_isFrequencyDirty outputStat
       curMenuSel curRow].
  destruct (settings s) as [f0 f1 step w [|] k]; destruct d; cbn; auto.
Qed.

(** X3.  Clockwise then counterclockwise, or the reverse, gives the frequency
    back unless a bound was met: at the top the frequency is held at
    [maxFreq], and a counterclockwise rotation from one step or less lands on
    the step itself. *)
Theorem changeFreq_round_trips (s : State) (t t' : Z) :
  0 < active_frequency s <= maxFreq ->
  0 <= freqStep (settings s) <= maxFreq ->
  let f := active_frequency s in
  let step := freqStep (settings s) in
  (f + step < maxFreq ->
   active_frequency (changeFreq COUNTERCLOCKWISE t' (changeFreq CLOCKWISE t s)) = f) /\
  (step < f ->
   active_frequency (changeFreq CLOCKWISE t' (changeFreq COUNTERCLOCKWISE t s)) = f) /\
  (maxFreq <= f + step -> active_frequency (changeFreq CLOCKWISE t s) = maxFreq) /\
  (f <= step -> active_frequency (changeFreq COUNTERCLOCKWISE t s) = step).
Proof.
  intros Hf Hstep. cbv zeta.
  remember (active_frequency s) as f eqn:Ef.
  remember (freqStep (settings s)) as step eqn:Es.
  assert (Hcw : active_frequency (changeFreq CLOCKWISE t s) =
                if f + step <? maxFreq then f + step else maxFreq).
  { rewrite FrequencyFacts.changeFreq_active_frequency. cbv zeta.
    rewrite <- Ef, <- Es. unfold maxFreq in *.
    rewrite s32_small by (change (2 ^ 31) with 2147483648; lia).
    rewrite u32_small by (change (2 ^ 32) with 4294967296; lia). reflexivity. }
  assert (Hccw : active_frequency (changeFreq COUNTERCLOCKWISE t s) =
                 if 0 <? f - step then f - step else step).
  { rewrite FrequencyFacts.changeFreq_active_frequency. cbv zeta.
    rewrite <- Ef, <- Es. unfold maxFreq in *.
    rewrite s32_small by (change (2 ^ 31) with 2147483648; lia).
    rewrite Z.gtb_ltb.
    destruct (Z.ltb_spec 0 (f - step)); [| reflexivity].
    apply u32_small. change (2 ^ 32) with 4294967296. lia. }
  unfold maxFreq in *.
  split; [| split; [| split]].
  - intros Hroom.
    rewrite FrequencyFacts.changeFreq_active_frequency. cbv zeta.
    rewrite FrequencyFacts.changeFreq_freqStep, Hcw, <- Es.
    destruct (Z.ltb_spec (f + step) 1000000); [| lia].
    rewrite s32_small by (change (2 ^ 31) with 2147483648; lia).
    rewrite Z.gtb_ltb.
    destruct (Z.ltb_spec 0 (f + step - step)); [| lia].
    rewrite u32_small by (change (2 ^ 32) with 4294967296; lia). lia.
  - intros Habove.
    rewrite FrequencyFacts.changeFreq_active_frequency. cbv zeta.
    rewrite FrequencyFacts.changeFreq_freqStep, Hccw, <- Es. unfold maxFreq.
    destruct (Z.ltb_spec 0 (f - step)); [| lia].
    rewrite s32_small by (change (2 ^ 31) with 2147483648; lia).
    rewrite u32_small by (change (2 ^ 32) with 4294967296; lia).
    destruct (Z.ltb_spec (f - step + step) 1000000); lia.
  - intros Htop. rewrite Hcw.
    destruct (Z.ltb_spec (f + step) 1000000); lia.
  - intros Hlow. rewrite Hccw.
    destruct (Z.ltb_spec 0 (f - step)); lia.
Qed.

(** From the reset state: 10 kHz, step 1 kHz. *)
Lemma changeFreq_round_trips_witness :
  let s := setup false (initial_state false erased_eeprom) in
  let f := active_frequency s in
  let step := freqStep (settings s) in
  (f + step < maxFreq ->
   active_frequency (changeFreq COUNTERCLOCKWISE 9 (changeFreq CLOCKWISE 5 s)) = f) /\
  (step < f ->
   active_frequency (changeFreq CLOCKWISE 9 (changeFreq COUNTERCLOCKWISE 5 s)) = f) /\
  (maxFreq <= f + step -> active_frequency (changeFreq CLOCKWISE 5 s) = maxFreq) /\
  (f <= step -> active_frequency (changeFreq COUNTERCLOCKWISE 5 s) = step).
Proof.
  apply (changeFreq_round_trips
           (setup false (initial_state false erased_eeprom)) 5 9).
  - vm_compute. split; [reflexivity | discriminate].
  - vm_compute. split; discriminate.
Defined.

(** X4.  Rotations on the home screen change the active channel's frequency and
    nothing else of the settings; they leave the frame, the output status and
    the generator alone. *)
Theorem home_rotations_touch_only_active_frequency
  (libm : Libm) (evs : list (Direction * Z)) : forall s,
  curDispFrame s = HOME_PAGE ->
  let s' := rotations evs s in
  curDispFrame s' = HOME_PAGE /\
  channel (settings s') = channel (settings s) /\
  frequency (settings s') (negb (channel (settings s))) =
    frequency (settings s) (negb (channel (settings s))) /\
  freqStep (settings s') = freqStep (settings s) /\
  waveform (settings s') = waveform (settings s) /\
  outputStat s' = outputStat s /\
  sigGen s' = sigGen s.
Proof.
  induction evs as [| [d t] evs IH]; intros s Hhome.
  - cbn. auto 10.
  - cbn [rotations fold_left fst snd].
    assert (Hrot : encRotate d t s = changeFreq d t s).
    { unfold encRotate. rewrite Hhome. reflexivity. }
    rewrite Hrot.
    specialize (IH (changeFreq d t s) Hhome). cbv zeta in IH.
    destruct IH as (I1 & I2 & I3 & I4 & I5 & I6 & I7).
    destruct (changeFreq_other_fields d t s) as (K1 & K2 & K3 & _ & _).
    pose proof (FrequencyFacts.changeFreq_channel d t s) as Kc.
    pose proof (FrequencyFacts.changeFreq_freqStep d t s) as Ks.
    rewrite Kc in I2, I3.
    unfold rotations in *.
    repeat split; try congruence.
    rewrite I7. reflexivity.
Qed.

Lemma home_rotations_touch_only_active_frequency_witness :
  let s := setup false (initial_state false erased_eeprom) in
  let s' := @rotations exact_libm [(CLOCKWISE, 5); (CLOCKWISE, 9); (COUNTERCLOCKWISE, 20)] s in
  curDispFrame s' = HOME_PAGE /\
  channel (settings s') = channel (settings s) /\
  frequency (settings s') (negb (channel (settings s))) =
    frequency (settings s) (negb (channel (settings s))) /\
  freqStep (settings s') = freqStep (settings s) /\
  waveform (settings s') = waveform (settings s) /\
  outputStat s' = outputStat s /\
  sigGen s' = sigGen s.
Proof.
  apply (home_rotations_touch_only_active_frequency exact_libm
           [(CLOCKWISE, 5); (CLOCKWISE, 9); (COUNTERCLOCKWISE, 20)]
           (setup false (initial_state false erased_eeprom))).
  reflexivity.
Defined.

(** *** The deadline on the 32-bit clock *)

Lemma elapsed_on_wrapped_clock (t elapsed : Z) :
  is_u32 t -> 0 <= elapsed < 2 ^ 32 -> u32 (u32 (t + elapsed) - t) = elapsed.
Proof.
  unfold is_u32, u32, wrap. change (2 ^ 32) with 4294967296.
  intros Ht He. Z.to_euclidean_division_equations. lia.
Qed.

(** X5.  The deadline is met across the overflow of [millis()]: when [elapsed]
    milliseconds (fewer than 2^32) have gone by since the staging, the tick
    commits if [elapsed] exceeds 400 and does nothing otherwise, wherever the
    clock stood. *)
Theorem commit_deadline_across_clock_overflow (s : State) (elapsed : Z) :
  isFrequencyDirty s = true ->
  is_u32 (lastFreqUpdate s) ->
  0 <= elapsed < 2 ^ 32 ->
  let now := u32 (lastFreqUpdate s + elapsed) in
  (elapsed <= freqUpdateDelay -> loop_runningFrequency now s = s) /\
  (freqUpdateDelay < elapsed ->
   sigGen (loop_runningFrequency now s) =
     sigGen s ++ [setFrequency (chan_of (channel (settings s))) (active_frequency s)] /\
   isFrequencyDirty (loop_runningFrequency now s) = false).
Proof.
  intros Hdirty Ht He now.
  pose proof (elapsed_on_wrapped_clock (lastFreqUpdate s) elapsed Ht He) as Hel.
  fold now in Hel. split.
  - intros Hearly. apply FrequencyFacts.tick_before_deadline. rewrite Hel. exact Hearly.
  - intros Hlate.
    rewrite FrequencyFacts.tick_after_deadline by (try rewrite Hel; assumption).
    split; reflexivity.
Qed.

(** A staging 100 ms before the clock overflows, polled 401 ms later, when
    [millis()] reads 301. *)
Lemma commit_deadline_across_clock_overflow_witness :
  let s := changeFreq CLOCKWISE 4294967196
             (setup false (initial_state false erased_eeprom)) in
  let now := u32 (lastFreqUpdate s + 401) in
  (401 <= freqUpdateDelay -> loop_runningFrequency now s = s) /\
  (freqUpdateDelay < 401 ->
   sigGen (loop_runningFrequency now s) =
     sigGen s ++ [setFrequency (chan_of (channel (settings s))) (active_frequency s)] /\
   isFrequencyDirty (loop_runningFrequency now s) = false).
Proof.
  apply (commit_deadline_across_clock_overflow
           (changeFreq CLOCKWISE 4294967196
              (setup false (initial_state false erased_eeprom))) 401).
  - reflexivity.
  - vm_compute. split; [discriminate | reflexivity].
  - vm_compute. split; [discriminate | reflexivity].
Defined.

(** *** Commit and channel swap *)

(** X6.  A double press between staging and deadline swaps the channel, and the
    commit then re-sends the other channel's unchanged frequency: the staged
    value stays in the settings, is not sent, and is no longer dirty. *)
Theorem channel_swap_drops_staged_commit (s : State) (d : Direction) (t now : Z) :
  curDispFrame s = HOME_PAGE ->
  freqUpdateDelay < u32 (now - t) ->
  let c := channel (settings s) in
  let s' := loop_runningFrequency now (encDoublePress (changeFreq d t s)) in
  sigGen s' =
    sigGen s ++ [setActiveFrequency (chan_of (negb c));
                 setFrequency (chan_of (negb c)) (frequency (settings s) (negb c))] /\
  isFrequencyDirty s' = false /\
  channel (settings s') = negb c /\
  frequency (settings s') c = active_frequency (changeFreq d t s).
Proof.
  intros Hhome Hlate c s'.
  set (staged := changeFreq d t s).
  assert (Hc : channel (settings staged) = c) by apply FrequencyFacts.changeFreq_channel.
  destruct (changeFreq_other_fields d t s) as (Hother & _). fold staged c in Hother.
  assert (Hswap : encDoublePress staged =
            call (setActiveFrequency (chan_of (negb c)))
              (with_settings (set_channel (negb c) (settings staged)) staged)).
  { unfold encDoublePress.
    change (curDispFrame staged) with (curDispFrame s). rewrite Hhome.
    cbn [settings with_settings channel set_channel]. rewrite Hc.
    unfold setADChannel. destruct c; reflexivity. }
  assert (Htick : s' =
            with_isFrequencyDirty false
              (setADFreq (negb c) (frequency (settings staged) (negb c))
                 (encDoublePress staged))).
  { unfold s'. fold staged. rewrite FrequencyFacts.tick_after_deadline.
    - rewrite Hswap. unfold active_frequency.
      cbn [settings call with_settings channel set_channel].
      destruct (settings staged) as [f0 f1 step w ch k]; destruct c; reflexivity.
    - rewrite Hswap. reflexivity.
    - rewrite Hswap. change (freqUpdateDelay < u32 (now - t)). exact Hlate. }
  rewrite Htick, Hswap, Hother.
  cbn [sigGen with_isFrequencyDirty setADFreq call with_settings isFrequencyDirty settings].
  change (sigGen staged) with (sigGen s).
  rewrite <- app_assoc.
  split; [reflexivity |]. split; [reflexivity |]. split.
  - destruct (settings staged) as [f0 f1 step w ch k]; reflexivity.
  - clear Htick Hswap Hother Hc. subst s' staged c.
    unfold active_frequency, changeFreq.
    cbn [settings with_settings with_lastFreqUpdate with_isFrequencyDirty].
    destruct (settings s) as [f0 f1 step w [|] k]; destruct d; reflexivity.
Qed.

(** One clockwise step on channel 0 after reset, a double press, and a tick
    half a second later. *)
Lemma channel_swap_drops_staged_commit_witness :
  let s := setup false (initial_state false erased_eeprom) in
  let s' := loop_runningFrequency 3500 (encDoublePress (changeFreq CLOCKWISE 3000 s)) in
  sigGen s' = sigGen s ++ [setActiveFrequency CHAN_1; setFrequency CHAN_1 1000] /\
  isFrequencyDirty s' = false /\
  channel (settings s') = true /\
  frequency (settings s') false = 11000.
Proof.
  apply (channel_swap_drops_staged_commit
           (setup false (initial_state false erased_eeprom)) CLOCKWISE 3000 3500).
  - reflexivity.
  - vm_compute. reflexivity.
Defined.

(** *** Commit and rotation in one pass *)

(** X7.  In a pass of [loop] the debounce test comes before the encoder: a commit
    that is due sends the value staged earlier, and a rotation handled in the
    same pass on the home screen is staged afresh. *)
Theorem due_commit_precedes_rotation (libm : Libm) (i : LoopInput) (s : State) :
  curDispFrame s = HOME_PAGE ->
  button i = None ->
  isFrequencyDirty s = true ->
  freqUpdateDelay < u32 (now i - lastFreqUpdate s) ->
  encPos s <> newPos i ->
  let s' := loop i s in
  sigGen s' =
    sigGen s ++ [setFrequency (chan_of (channel (settings s))) (active_frequency s)] /\
  isFrequencyDirty s' = true /\
  lastFreqUpdate s' = rotTime i /\
  active_frequency s' = active_frequency (changeFreq (rotDir i) (rotTime i) s).
Proof.
  intros Hhome Hbtn Hdirty Hlate Hmoved s'.
  unfold s', loop. rewrite Hbtn. cbn [encBtn_tick].
  rewrite FrequencyFacts.tick_after_deadline by assumption.
  cbn [encPos with_isFrequencyDirty setADFreq call].
  destruct (Z.eqb_spec (encPos s) (newPos i)) as [Heq | _]; [contradiction |].
  unfold encRotate.
  cbn [curDispFrame with_isFrequencyDirty setADFreq call]. rewrite Hhome.
  unfold updateDisplay.
  match goal with
  | |- context [if ?b then _ else _] => destruct b
  end; repeat split.
Qed.

Lemma due_commit_precedes_rotation_witness :
  let s := changeFreq CLOCKWISE 3000 (setup false (initial_state false erased_eeprom)) in
  let i := mkLoopInput None 3500 1 CLOCKWISE 3501 in
  let s' := @loop exact_libm i s in
  sigGen s' = sigGen s ++ [setFrequency CHAN_0 11000] /\
  isFrequencyDirty s' = true /\
  lastFreqUpdate s' = 3501 /\
  active_frequency s' = 12000.
Proof.
  apply (due_commit_precedes_rotation exact_libm
           (mkLoopInput None 3500 1 CLOCKWISE 3501)
           (changeFreq CLOCKWISE 3000 (setup false (initial_state false erased_eeprom)))).
  - reflexivity.
  - reflexivity.
  - reflexivity.
  - vm_compute. reflexivity.
  - vm_compute. discriminate.
Defined.

(** *** Turning without pause *)

Lemma turning_pass (libm : Libm) (i : LoopInput) (s : State) :
  curDispFrame s = HOME_PAGE ->
  button i = None -> newPos i <> encPos s ->
  u32 (now i - lastFreqUpdate s) <= freqUpdateDelay ->
  curDispFrame (loop i s) = HOME_PAGE /\
  encPos (loop i s) = newPos i /\
  lastFreqUpdate (loop i s) = rotTime i /\
  isFrequencyDirty (loop i s) = true /\
  sigGen (loop i s) = sigGen s.
Proof.
  intros Hhome Hbtn Hmoved Hearly. unfold loop. rewrite Hbtn. cbn [encBtn_tick].
  rewrite FrequencyFacts.tick_before_deadline by exact Hearly.
  destruct (Z.eqb_spec (encPos s) (newPos i)) as [Heq | _];
    [symmetry in Heq; contradiction |].
  unfold encRotate. rewrite Hhome. unfold updateDisplay.
  match goal with
  | |- context [if ?b then _ else _] => destruct b
  end; (split; [exact Hhome | repeat split]).
Qed.

(** X8.  While the knob keeps turning on the home screen, each pass at most 400
    ms after the previous staging, nothing is sent to the generator: the
    commit waits for a pause, and the value stays dirty. *)
Theorem continuous_rotation_defers_commit (libm : Libm) (inputs : list LoopInput) :
  forall s,
  curDispFrame s = HOME_PAGE ->
  turning (encPos s) (lastFreqUpdate s) inputs ->
  sigGen (run inputs s) = sigGen s /\
  curDispFrame (run inputs s) = HOME_PAGE /\
  (inputs <> [] -> isFrequencyDirty (run inputs s) = true).
Proof.
  induction inputs as [| i inputs IH]; intros s Hhome Hturn.
  - cbn. repeat split; [exact Hhome | intros Hne; contradiction].
  - cbn [turning] in Hturn. destruct Hturn as (Hbtn & Hmoved & Hearly & Hrest).
    destruct (turning_pass libm i s Hhome Hbtn Hmoved Hearly)
      as (Hhome' & Hpos & Hlast & Hdirty & Hsig).
    cbn [run fold_left]. fold (run inputs (loop i s)).
    rewrite <- Hpos, <- Hlast in Hrest.
    destruct (IH (loop i s) Hhome' Hrest) as (Isig & Ihome & Idirty).
    split; [rewrite Isig; exact Hsig |]. split; [exact Ihome |].
    intros _. destruct inputs as [| j inputs'].
    + exact Hdirty.
    + apply Idirty. discriminate.
Qed.

(** Four detents after reset, 150 ms apart. *)
Lemma continuous_rotation_defers_commit_witness :
  let s := changeFreq CLOCKWISE 3000 (setup false (initial_state false erased_eeprom)) in
  let inputs := [mkLoopInput None 3150 1 CLOCKWISE 3150;
                 mkLoopInput None 3300 2 CLOCKWISE 3300;
                 mkLoopInput None 3450 3 CLOCKWISE 3450;
                 mkLoopInput None 3600 4 CLOCKWISE 3600] in
  sigGen (@run exact_libm inputs s) = sigGen s /\
  curDispFrame (@run exact_libm inputs s) = HOME_PAGE /\
  (inputs <> [] -> isFrequencyDirty (@run exact_libm inputs s) = true).
Proof.
  apply (continuous_rotation_defers_commit exact_libm
           [mkLoopInput None 3150 1 CLOCKWISE 3150;
            mkLoopInput None 3300 2 CLOCKWISE 3300;
            mkLoopInput None 3450 3 CLOCKWISE 3450;
            mkLoopInput None 3600 4 CLOCKWISE 3600]
           (changeFreq CLOCKWISE 3000
              (setup false (initial_state false erased_eeprom)))).
  - reflexivity.
  - cbn [turning button newPos now rotTime encPos lastFreqUpdate].
    repeat split; try discriminate; vm_compute; discriminate.
Defined.

End RegulatorFacts.

(** ** Invariants of the control loop *)

Module InvariantFacts.

Import AVRFacts Part000 Panel.

Ltac by_cases :=
  repeat match goal with
         | |- context [match ?x with _ => _ end] => destruct x eqn:?
         end.

Ltac bool_hyps :=
  repeat match goal with
         | H : (_ <? _) = true |- _ => apply Z.ltb_lt in H
         | H : (_ <? _) = false |- _ => apply Z.ltb_ge in H
         | H : (_ >? _) = _ |- _ => rewrite Z.gtb_ltb in H
         | H : (_ =? _) = true |- _ => apply Z.eqb_eq in H
         | H : (_ =? _) = false |- _ => apply Z.eqb_neq in H
         end.

Ltac names :=
  unfold menuItmStr_len, waveformStr_len, Function, Frequency, Version, SIN, CLK, TRI in *.

(** *** Selection, edit row and waveform *)

Lemma toggleOutput_navigation (s : State) :
  navigation_ok s -> navigation_ok (toggleOutput s).
Proof.
  unfold navigation_ok, toggleOutput, setADSigMode.
  destruct s as [st dd fd out sel last frame row pos sig cells]. cbn.
  intros H. by_cases; cbn; exact H.
Qed.

Lemma encBtn_tick_navigation (ev : option ButtonEvent) (s : State) :
  navigation_ok s -> navigation_ok (encBtn_tick ev s).
Proof.
  intros H. destruct ev as [[| |] |]; cbn [encBtn_tick]; [| | | exact H].
  - unfold encPress. destruct (curDispFrame s); [apply toggleOutput_navigation, H | |];
      revert H; unfold navigation_ok;
      destruct s as [st dd fd out sel last frame row pos sig cells]; cbn;
      intros H; by_cases; cbn; names; bool_hyps; intuition lia.
  - revert H. unfold navigation_ok, encDoublePress, setADChannel.
    destruct s as [[f0 f1 step w ch k] dd fd out sel last frame row pos sig cells]. cbn.
    intros H. by_cases; cbn; exact H.
  - revert H. unfold navigation_ok, encLongPress.
    destruct s as [st dd fd out sel last frame row pos sig cells]. cbn.
    intros H. by_cases; cbn; names; bool_hyps; intuition lia.
Qed.

Lemma runningFrequency_navigation (now : Z) (s : State) :
  navigation_ok s -> navigation_ok (loop_runningFrequency now s).
Proof.
  unfold navigation_ok, loop_runningFrequency.
  destruct s as [st dd fd out sel last frame row pos sig cells]. cbn.
  intros H. by_cases; cbn; exact H.
Qed.

Lemma changeFreq_navigation (d : Direction) (t : Z) (s : State) :
  navigation_ok s -> navigation_ok (changeFreq d t s).
Proof.
  unfold navigation_ok.
  destruct (RegulatorFacts.changeFreq_other_fields d t s) as (_ & Hw & _ & Hsel & Hrow).
  rewrite Hw, Hsel, Hrow. auto.
Qed.

Lemma changeMenu_navigation (d : Direction) (s : State) :
  navigation_ok s -> navigation_ok (changeMenu d s).
Proof.
  unfold navigation_ok, changeMenu.
  destruct s as [st dd fd out sel last frame row pos sig cells]. cbn.
  intros H. destruct d; by_cases; cbn; names; bool_hyps;
    rewrite ?u8_small by lia; intuition lia.
Qed.

Lemma encRotate_navigation {libm : Libm} (d : Direction) (t : Z) (s : State) :
  navigation_ok s -> navigation_ok (encRotate d t s).
Proof.
  intros H. unfold encRotate. destruct (curDispFrame s).
  - apply changeFreq_navigation, H.
  - apply changeMenu_navigation, H.
  - unfold handleSettingChange.
    destruct (curMenuSel s =? Function).
    + unfold setWaveform. apply toggleOutput_navigation.
      revert H. unfold navigation_ok.
      destruct s as [[f0 f1 step w ch k] dd fd out sel last frame row pos sig cells]. cbn.
      intros H. destruct d; by_cases; names; bool_hyps;
        rewrite ?u8_small by lia; intuition lia.
    + destruct (curMenuSel s =? Frequency); [| exact H].
      destruct (curRow s =? 0); [apply changeFreq_navigation, H |].
      revert H. unfold navigation_ok, changeStep.
      destruct s as [[f0 f1 step w ch k] dd fd out sel last frame row pos sig cells]. cbn.
      auto.
Qed.

Lemma loop_navigation {libm : Libm} (i : LoopInput) (s : State) :
  navigation_ok s -> navigation_ok (loop i s).
Proof.
  intros H. unfold loop.
  pose proof (runningFrequency_navigation (now i) _
                (encBtn_tick_navigation (button i) s H)) as H2.
  set (s2 := loop_runningFrequency (now i) (encBtn_tick (button i) s)) in *.
  assert (H3 : navigation_ok
                 (if encPos s2 =? newPos i then s2
                  else with_encPos (newPos i) (encRotate (rotDir i) (rotTime i) s2))).
  { destruct (encPos s2 =? newPos i); [exact H2 |].
    apply (encRotate_navigation (rotDir i) (rotTime i)) in H2. exact H2. }
  destruct (isDispDirty _); exact H3.
Qed.

(** X9.  Whatever the gestures and rotations, the selection stays a menu item,
    the edit row stays 0 or 1 and the waveform stays one of [SIN], [CLK],
    [TRI]: no handler of the sketch indexes its string tables out of range. *)
Theorem navigation_stays_in_range (libm : Libm) (inputs : list LoopInput) : forall s,
  navigation_ok s -> navigation_ok (run inputs s).
Proof.
  induction inputs as [| i inputs IH]; intros s H.
  - exact H.
  - cbn [run fold_left]. apply IH. apply loop_navigation, H.
Qed.

(** A click, a long press, a rotation in the menu and a click from reset. *)
Lemma navigation_stays_in_range_witness :
  navigation_ok
    (@run exact_libm
       [mkLoopInput (Some Click) 2100 0 NOROTATION 0;
        mkLoopInput (Some LongPressStart) 2500 0 NOROTATION 0;
        mkLoopInput None 2600 1 CLOCKWISE 2600;
        mkLoopInput (Some Click) 2700 1 NOROTATION 0]
       (setup false (initial_state false erased_eeprom))).
Proof.
  apply (navigation_stays_in_range exact_libm).
  unfold navigation_ok. vm_compute.
  split; [split; discriminate |]. split; [left; reflexivity | split; discriminate].
Defined.

(** *** Step and frequencies *)

Section Accurate.
Context {libm : Libm} {accurate : LibmAccurate libm}.

Lemma changeFreq_settings_ok (d : Direction) (t : Z) (s : State) :
  settings_ok (settings s) -> settings_ok (settings (changeFreq d t s)).
Proof.
  intros ((k & Hk & Hstep) & H0 & H1). unfold settings_ok.
  rewrite FrequencyFacts.changeFreq_freqStep.
  split; [exists k; auto |].
  assert (Hbound : 0 <= freqStep (settings s) <= maxFreq).
  { rewrite Hstep. unfold maxFreq.
    assert (Hcases : k = 0 \/ k = 1 \/ k = 2 \/ k = 3 \/ k = 4 \/ k = 5) by lia.
    destruct Hcases as [-> | [-> | [-> | [-> | [-> | ->]]]]];
      (vm_compute; split; discriminate). }
  pose proof (FrequencyFacts.changeFreq_range d t s) as Hactive.
  pose proof (FrequencyFacts.changeFreq_channel d t s) as Hch.
  destruct (RegulatorFacts.changeFreq_other_fields d t s) as (Hother & _).
  unfold active_frequency in Hactive. rewrite Hch in Hactive.
  destruct (channel (settings s)); cbn [frequency negb] in Hactive, Hother.
  - rewrite Hother. split; [exact H0 | apply Hactive; assumption].
  - rewrite Hother. split; [apply Hactive; assumption | exact H1].
Qed.

Lemma changeStep_settings_ok (d : Direction) (s : State) :
  settings_ok (settings s) -> settings_ok (settings (changeStep d s)).
Proof.
  intros ((k & Hk & Hstep) & H0 & H1). unfold settings_ok.
  pose proof (StepEditorFacts.changeStep_exponent d s k Hk Hstep) as Hnew.
  split.
  - eexists. split; [| exact Hnew]. destruct d; lia.
  - unfold changeStep. cbn [settings with_settings frequency_0 frequency_1 set_freqStep].
    auto.
Qed.

Lemma toggleOutput_settings_ok (s : State) :
  settings_ok (settings s) -> settings_ok (settings (toggleOutput s)).
Proof. rewrite OutputFacts.toggleOutput_settings. auto. Qed.

Lemma encBtn_tick_settings_ok (ev : option ButtonEvent) (s : State) :
  settings_ok (settings s) -> settings_ok (settings (encBtn_tick ev s)).
Proof.
  intros H. destruct ev as [[| |] |]; cbn [encBtn_tick]; [| | | exact H].
  - unfold encPress. destruct (curDispFrame s);
      [apply toggleOutput_settings_ok, H | exact H |].
    destruct (curMenuSel s =? Frequency); exact H.
  - unfold encDoublePress, setADChannel.
    destruct (curDispFrame s); [| exact H | exact H].
    cbn [settings with_settings channel set_channel].
    destruct (negb _); exact H.
  - unfold encLongPress. destruct (curDispFrame s); [exact H | exact H |].
    destruct (curMenuSel s =? Frequency); exact H.
Qed.

Lemma runningFrequency_settings (now : Z) (s : State) :
  settings (loop_runningFrequency now s) = settings s.
Proof.
  unfold loop_runningFrequency. destruct (isFrequencyDirty s); [| reflexivity].
  destruct (_ >? _); reflexivity.
Qed.

Lemma encRotate_settings_ok (d : Direction) (t : Z) (s : State) :
  settings_ok (settings s) -> settings_ok (settings (encRotate d t s)).
Proof.
  intros H. unfold encRotate. destruct (curDispFrame s).
  - apply changeFreq_settings_ok, H.
  - unfold changeMenu. destruct d; by_cases; exact H.
  - unfold handleSettingChange.
    destruct (curMenuSel s =? Function).
    + unfold setWaveform. rewrite OutputFacts.toggleOutput_settings.
      cbn [settings with_settings]. exact H.
    + destruct (curMenuSel s =? Frequency); [| exact H].
      destruct (curRow s =? 0);
        [apply changeFreq_settings_ok, H | apply changeStep_settings_ok, H].
Qed.

Lemma loop_settings_ok (i : LoopInput) (s : State) :
  settings_ok (settings s) -> settings_ok (settings (loop i s)).
Proof.
  intros H. unfold loop.
  apply (encBtn_tick_settings_ok (button i)) in H.
  rewrite <- (runningFrequency_settings (now i)) in H.
  set (s2 := loop_runningFrequency (now i) (encBtn_tick (button i) s)) in *.
  assert (H3 : settings_ok (settings
                 (if encPos s2 =? newPos i then s2
                  else with_encPos (newPos i) (encRotate (rotDir i) (rotTime i) s2)))).
  { destruct (encPos s2 =? newPos i); [exact H |].
    apply (encRotate_settings_ok (rotDir i) (rotTime i)) in H. exact H. }
  destruct (isDispDirty _); exact H3.
Qed.

End Accurate.

(** X10.  With an accurate math library, whatever the gestures and rotations, the
    step stays a power of ten between 1 and [maxFreqStep] and both channels
    keep a frequency in (0, maxFreq]. *)
Theorem settings_stay_in_range
  (libm : Libm) (accurate : LibmAccurate libm) (inputs : list LoopInput) : forall s,
  settings_ok (settings s) -> settings_ok (settings (run inputs s)).
Proof.
  induction inputs as [| i inputs IH]; intros s H.
  - exact H.
  - cbn [run fold_left]. apply IH. apply loop_settings_ok, H.
Qed.

(** From reset into the step editor and back to the home screen, turning the
    knob on the way. *)
Lemma settings_stay_in_range_witness :
  settings_ok
    (settings
       (@run exact_libm
          [mkLoopInput (Some LongPressStart) 2500 0 NOROTATION 0;
           mkLoopInput None 2600 1 CLOCKWISE 2600;
           mkLoopInput (Some Click) 2700 1 NOROTATION 0;
           mkLoopInput (Some Click) 2800 1 NOROTATION 0;
           mkLoopInput None 2900 2 CLOCKWISE 2900;
           mkLoopInput (Some LongPressStart) 3000 2 NOROTATION 0;
           mkLoopInput (Some LongPressStart) 3100 2 NOROTATION 0;
           mkLoopInput None 3200 3 COUNTERCLOCKWISE 3200]
          (setup false (initial_state false erased_eeprom)))).
Proof.
  apply (settings_stay_in_range exact_libm StepEditorFacts.exact_libm_accurate).
  unfold settings_ok. split.
  - exists 3. split; [lia | reflexivity].
  - vm_compute. repeat split; discriminate.
Defined.

(** *** Frames, selection and edit row *)








(** *** The generator mirrors the sketch *)

Lemma last_mode_app (tr : list SigGenCall) (c : SigGenCall) :
  last_mode (tr ++ [c]) = match c with setMode m => Some m | _ => last_mode tr end.
Proof. unfold last_mode. rewrite fold_left_app. reflexivity. Qed.

Lemma last_active_channel_app (tr : list SigGenCall) (c : SigGenCall) :
  last_active_channel (tr ++ [c]) =
  match c with setActiveFrequency ch => Some ch | _ => last_active_channel tr end.
Proof. unfold last_active_channel. rewrite fold_left_app. reflexivity. Qed.

Ltac mirror_simpl :=
  cbn [sigGen settings outputStat waveform channel call with_outputStat with_settings
       set_waveform set_channel];
  rewrite ?last_mode_app, ?last_active_channel_app.

Lemma toggleOutput_mirrored (s : State) :
  0 <= waveform (settings s) <= waveformStr_len - 1 ->
  last_active_channel (sigGen s) = Some (chan_of (channel (settings s))) ->
  mirrored (toggleOutput s).
Proof.
  unfold mirrored, expected_mode, toggleOutput, setADSigMode.
  destruct s as [[f0 f1 step w ch k] dd fd out sel last frame row pos sig cells].
  cbn [sigGen settings outputStat waveform channel with_outputStat].
  intros Hw Hch. names.
  assert (Hcases : w = 0 \/ w = 1 \/ w = 2) by lia.
  destruct out, Hcases as [-> | [-> | ->]]; cbn [Z.eqb Pos.eqb]; mirror_simpl;
    cbn [Z.eqb Pos.eqb]; auto.
Qed.

Lemma encBtn_tick_mirrored (ev : option ButtonEvent) (s : State) :
  mirrored s -> mirrored (encBtn_tick ev s).
Proof.
  intros H. destruct ev as [[| |] |]; cbn [encBtn_tick]; [| | | exact H].
  - unfold encPress. destruct (curDispFrame s).
    + destruct H as (Hw & _ & Hch). apply toggleOutput_mirrored; assumption.
    + exact H.
    + destruct (curMenuSel s =? Frequency); exact H.
  - unfold encDoublePress, setADChannel.
    destruct (curDispFrame s); [| exact H | exact H].
    revert H. unfold mirrored, expected_mode.
    destruct s as [[f0 f1 step w ch k] dd fd out sel last frame row pos sig cells].
    cbn [sigGen settings outputStat waveform channel with_settings set_channel].
    intros (Hw & Hmode & Hch).
    destruct ch; cbn [negb]; mirror_simpl; auto.
  - unfold encLongPress. destruct (curDispFrame s); [exact H | exact H |].
    destruct (curMenuSel s =? Frequency); exact H.
Qed.

Lemma runningFrequency_mirrored (now : Z) (s : State) :
  mirrored s -> mirrored (loop_runningFrequency now s).
Proof.
  intros H. unfold loop_runningFrequency.
  destruct (isFrequencyDirty s); [| exact H].
  destruct (_ >? _); [| exact H].
  revert H. unfold mirrored, expected_mode, setADFreq.
  destruct s as [st dd fd out sel last frame row pos sig cells].
  cbn [sigGen settings outputStat with_isFrequencyDirty call].
  rewrite last_mode_app, last_active_channel_app. auto.
Qed.

Lemma changeFreq_mirrored (d : Direction) (t : Z) (s : State) :
  mirrored s -> mirrored (changeFreq d t s).
Proof.
  unfold mirrored, expected_mode.
  destruct (RegulatorFacts.changeFreq_other_fields d t s) as (_ & Hw & Hout & _).
  rewrite Hw, Hout, FrequencyFacts.changeFreq_channel. auto.
Qed.

Lemma encRotate_mirrored {libm : Libm} (d : Direction) (t : Z) (s : State) :
  mirrored s -> mirrored (encRotate d t s).
Proof.
  intros H. unfold encRotate. destruct (curDispFrame s).
  - apply changeFreq_mirrored, H.
  - unfold changeMenu. destruct d; by_cases; exact H.
  - unfold handleSettingChange.
    destruct (curMenuSel s =? Function).
    + unfold setWaveform. destruct H as (Hw & _ & Hch).
      apply toggleOutput_mirrored.
      * cbn [settings with_settings waveform set_waveform]. revert Hw. names.
        intros Hw. destruct d; by_cases; bool_hyps; rewrite ?u8_small by lia; lia.
      * cbn [settings with_settings sigGen channel set_waveform]. exact Hch.
    + destruct (curMenuSel s =? Frequency); [| exact H].
      destruct (curRow s =? 0); [apply changeFreq_mirrored, H | exact H].
Qed.

Lemma loop_mirrored {libm : Libm} (i : LoopInput) (s : State) :
  mirrored s -> mirrored (loop i s).
Proof.
  intros H. unfold loop.
  pose proof (runningFrequency_mirrored (now i) _
                (encBtn_tick_mirrored (button i) s H)) as H2.
  set (s2 := loop_runningFrequency (now i) (encBtn_tick (button i) s)) in *.
  assert (H3 : mirrored
                 (if encPos s2 =? newPos i then s2
                  else with_encPos (newPos i) (encRotate (rotDir i) (rotTime i) s2))).
  { destruct (encPos s2 =? newPos i); [exact H2 |].
    apply (encRotate_mirrored (rotDir i) (rotTime i)) in H2. exact H2. }
  destruct (isDispDirty _); exact H3.
Qed.

(** X11.  Whatever the gestures and rotations, the mode last sent to the
    generator is [MODE_OFF] when the output status is off and the mode of the
    current waveform when it is on, and the active channel last sent is the
    channel of the settings. *)
Theorem generator_mirrors_sketch (libm : Libm) (inputs : list LoopInput) : forall s,
  mirrored s -> mirrored (run inputs s).
Proof.
  induction inputs as [| i inputs IH]; intros s H.
  - exact H.
  - cbn [run fold_left]. apply IH. apply loop_mirrored, H.
Qed.

(** From reset: output on, channel swap, waveform selector, one rotation. *)
Lemma generator_mirrors_sketch_witness :
  mirrored
    (@run exact_libm
       [mkLoopInput (Some Click) 2100 0 NOROTATION 0;
        mkLoopInput (Some DoubleClick) 2300 0 NOROTATION 0;
        mkLoopInput (Some LongPressStart) 2500 0 NOROTATION 0;
        mkLoopInput (Some Click) 2700 0 NOROTATION 0;
        mkLoopInput None 2900 1 CLOCKWISE 2900]
       (setup false (initial_state false erased_eeprom))).
Proof.
  apply (generator_mirrors_sketch exact_libm).
  unfold mirrored. vm_compute.
  split; [split; discriminate |]. split; reflexivity.
Defined.

End InvariantFacts.

(** ** Integrity of the persisted record *)

Module IntegrityFacts.

Import AVRFacts Crc8 Part000 Panel.

(** *** What the checksum detects *)

Lemma round_injective (x y : Z) :
  is_u8 x -> is_u8 y -> crc8_round x = crc8_round y -> x = y.
Proof.
  intros Hx Hy Heq.
  pose (distinct := fun a =>
    forallb (fun b => implb (crc8_round a =? crc8_round b) (a =? b))
            (map Z.of_nat (seq 0 256))).
  assert (Hall : distinct x = true).
  { apply below_256_cases; [vm_compute; reflexivity | exact Hx]. }
  unfold distinct in Hall.
  pose proof (below_256_cases _ Hall y Hy) as Hxy. cbv beta in Hxy.
  rewrite Heq, Z.eqb_refl in Hxy. apply Z.eqb_eq. exact Hxy.
Qed.

Lemma rounds_injective (n : nat) : forall x y,
  is_u8 x -> is_u8 y ->
  repeat_body n crc8_round x = repeat_body n crc8_round y -> x = y.
Proof.
  induction n as [| n IH]; intros x y Hx Hy Heq; cbn [repeat_body] in Heq.
  - exact Heq.
  - apply round_injective; try assumption.
    apply IH; [apply Crc8Facts.round_range | apply Crc8Facts.round_range | exact Heq].
Qed.

Lemma byte_high_bits (c i : Z) : is_u8 c -> 8 <= i -> Z.testbit c i = false.
Proof.
  intros Hc Hi. rewrite <- (u8_small c Hc). unfold u8, wrap.
  apply Z.mod_pow2_bits_high. lia.
Qed.

(** XORing the same byte into two running values keeps them apart. *)
Lemma xor_in_injective (c c' x : Z) :
  is_u8 c -> is_u8 c' -> u8 (Z.lxor c x) = u8 (Z.lxor c' x) -> c = c'.
Proof.
  intros Hc Hc' Heq. apply Z.bits_inj'. intros i Hi.
  destruct (Z.lt_ge_cases i 8) as [Hlow | Hhigh].
  - assert (Hbit : Z.testbit (u8 (Z.lxor c x)) i = Z.testbit (u8 (Z.lxor c' x)) i)
      by (rewrite Heq; reflexivity).
    rewrite !Crc8Facts.u8_testbit, !Z.lxor_spec in Hbit by lia.
    destruct (Z.testbit c i), (Z.testbit c' i), (Z.testbit x i);
      try reflexivity; discriminate Hbit.
  - rewrite !byte_high_bits by assumption. reflexivity.
Qed.

Lemma absorbed_range (crc b : Z) :
  is_u8 (repeat_body 8 crc8_round (u8 (Z.lxor crc b))).
Proof. apply (Crc8Facts.rounds_refine 8). apply u8_range. Qed.

(** Two running values that differ still differ after the same bytes. *)
Lemma while_injective (rest : list Z) : forall len c c',
  is_u8 c -> is_u8 c' -> c <> c' ->
  crc8block_while rest len c <> crc8block_while rest len c'.
Proof.
  induction rest as [| x rest IH]; intros len c c' Hc Hc' Hne.
  - destruct len; exact Hne.
  - destruct len as [| len]; cbn [crc8block_while]; [exact Hne |].
    apply IH; try apply absorbed_range.
    intros Heq. apply Hne.
    apply rounds_injective in Heq; try apply u8_range.
    apply (xor_in_injective c c' x); assumption.
Qed.

Lemma while_detects (pre : list Z) : forall (b b' : Z) (post : list Z) len c,
  (length pre < len)%nat ->
  is_u8 b -> is_u8 b' -> b <> b' -> is_u8 c ->
  crc8block_while (pre ++ b :: post) len c <> crc8block_while (pre ++ b' :: post) len c.
Proof.
  induction pre as [| x pre IH]; intros b b' post len c Hlen Hb Hb' Hne Hc.
  - destruct len as [| len]; [cbn in Hlen; lia |].
    cbn [app crc8block_while].
    apply while_injective; try apply absorbed_range.
    intros Heq. apply Hne.
    apply rounds_injective in Heq; try apply u8_range.
    rewrite (Z.lxor_comm c b), (Z.lxor_comm c b') in Heq.
    apply (xor_in_injective b b' c); assumption.
  - destruct len as [| len]; [cbn in Hlen; lia |].
    cbn [app crc8block_while length] in *.
    apply IH; try assumption; [lia | apply absorbed_range].
Qed.

Lemma split_at (cells : list Z) : forall i,
  (i < length cells)%nat ->
  cells = firstn i cells ++ nth i cells 0 :: skipn (S i) cells.
Proof.
  induction cells as [| x cells IH]; intros i Hi; [cbn in Hi; lia |].
  destruct i as [| i]; [reflexivity |].
  cbn [firstn nth skipn app]. f_equal. apply IH. cbn in Hi. lia.
Qed.

Lemma checksum_detects_single_byte_on (cells : list Z) (i : nat) (v : Z) (len : nat) :
  (i < length cells)%nat ->
  is_u8 (nth i cells 0) -> is_u8 v -> v <> nth i cells 0 ->
  ((i < len)%nat -> crc8block (poke i v cells) len <> crc8block cells len) /\
  ((len <= i)%nat -> crc8block (poke i v cells) len = crc8block cells len).
Proof.
  intros Hi Hold Hnew Hne.
  assert (Hpre : length (firstn i cells) = i) by (apply firstn_length_le; lia).
  split.
  - intros Hin. rewrite (split_at cells i Hi) at 2. unfold poke, crc8block.
    apply while_detects; try assumption; [lia | unfold is_u8; lia].
  - intros Hout.
    rewrite !Crc8Facts.crc8block_is_reference_checksum_on_prefix. f_equal.
    rewrite (split_at cells i Hi) at 2. unfold poke.
    rewrite !firstn_app, Hpre.
    replace (len - i)%nat with 0%nat by lia. reflexivity.
Qed.

(** X12.  Replacing one byte of a block by a different byte changes the checksum
    whenever that byte lies within the [len] bytes summed, and leaves it
    unchanged when it lies beyond them: every corruption confined to one byte,
    a single flipped bit included, is detected. *)
Theorem checksum_detects_single_byte (cells : list Z) (i : nat) (v : Z) (len : nat) :
  (i < length cells)%nat ->
  is_u8 (nth i cells 0) -> is_u8 v -> v <> nth i cells 0 ->
  ((i < len)%nat -> crc8block (poke i v cells) len <> crc8block cells len) /\
  ((len <= i)%nat -> crc8block (poke i v cells) len = crc8block cells len).
Proof. apply checksum_detects_single_byte_on. Qed.

(** The message "123456789" with its fifth byte changed from '5' to '4'
    (one bit flipped). *)
Lemma checksum_detects_single_byte_witness :
  ((4 < 9)%nat ->
   crc8block (poke 4 52 [49; 50; 51; 52; 53; 54; 55; 56; 57]) 9 <>
   crc8block [49; 50; 51; 52; 53; 54; 55; 56; 57] 9) /\
  ((9 <= 4)%nat ->
   crc8block (poke 4 52 [49; 50; 51; 52; 53; 54; 55; 56; 57]) 9 =
   crc8block [49; 50; 51; 52; 53; 54; 55; 56; 57] 9).
Proof.
  apply (checksum_detects_single_byte [49; 50; 51; 52; 53; 54; 55; 56; 57] 4 52 9).
  - cbn. lia.
  - unfold is_u8. cbn. lia.
  - unfold is_u8. lia.
  - cbn. discriminate.
Defined.

End IntegrityFacts.

(** ** Corruption of the stored record *)

Module PowerCycleFacts.

Import AVRFacts Crc8 Part000 Panel.

(** The bytes written by [writeToEEPROM], and what a later load finds. *)
Lemma saved_image (s : State) :
  eeprom_read_block (eeprom (writeToEEPROM s)) EEPROM_ADDRESS_SHIFT sizeof_Settings =
  settings_bytes (settings (writeToEEPROM s)).
Proof.
  unfold writeToEEPROM. cbn [eeprom with_eeprom settings with_settings].
  apply SettingsStoreFacts.read_written_settings.
Qed.

Lemma saved_checksum (s : State) :
  crc8block (settings_bytes (settings (writeToEEPROM s))) (sizeof_Settings - 1) =
  checksum (settings (writeToEEPROM s)).
Proof.
  unfold writeToEEPROM. cbn [settings with_eeprom with_settings checksum set_checksum].
  apply SettingsStoreFacts.checksum_skips_last_byte.
Qed.

Lemma saved_in_range (s : State) :
  settings_in_range (settings s) -> settings_in_range (settings (writeToEEPROM s)).
Proof.
  intros (H0 & H1 & H2 & H3 & _). unfold writeToEEPROM, settings_in_range.
  cbn [settings with_eeprom with_settings frequency_0 frequency_1 freqStep waveform
       checksum set_checksum].
  refine (conj H0 (conj H1 (conj H2 (conj H3 _)))).
  apply Crc8Facts.crc8block_range.
Qed.

Lemma settings_bytes_are_bytes (st : Settings) :
  settings_in_range st -> Forall is_u8 (settings_bytes st).
Proof.
  intros (_ & _ & _ & Hw & Hk). rewrite SettingsStoreFacts.settings_bytes_cells.
  repeat match goal with
         | |- Forall _ (_ :: _) => apply Forall_cons
         | |- Forall _ [] => apply Forall_nil
         end; try apply u8_range; try assumption.
  destruct (channel st); unfold is_u8; lia.
Qed.

(** *** Corruption *)

Lemma corrupted_image (rom : Z -> Z) (a v : Z) :
  0 <= a < 15 ->
  eeprom_read_block (corrupt_cell a v rom) EEPROM_ADDRESS_SHIFT sizeof_Settings =
  poke (Z.to_nat a) v (eeprom_read_block rom EEPROM_ADDRESS_SHIFT sizeof_Settings).
Proof.
  intros Ha.
  assert (Hcases : a = 0 \/ a = 1 \/ a = 2 \/ a = 3 \/ a = 4 \/ a = 5 \/ a = 6 \/ a = 7 \/
                   a = 8 \/ a = 9 \/ a = 10 \/ a = 11 \/ a = 12 \/ a = 13 \/ a = 14)
    by lia.
  repeat (destruct Hcases as [-> | Hcases]; [reflexivity |]).
  subst a. reflexivity.
Qed.

Lemma read_block_cell (rom : Z -> Z) (a : Z) :
  0 <= a < 15 ->
  rom a = nth (Z.to_nat a) (eeprom_read_block rom EEPROM_ADDRESS_SHIFT sizeof_Settings) 0.
Proof.
  intros Ha.
  assert (Hcases : a = 0 \/ a = 1 \/ a = 2 \/ a = 3 \/ a = 4 \/ a = 5 \/ a = 6 \/ a = 7 \/
                   a = 8 \/ a = 9 \/ a = 10 \/ a = 11 \/ a = 12 \/ a = 13 \/ a = 14)
    by lia.
  repeat (destruct Hcases as [-> | Hcases]; [reflexivity |]).
  subst a. reflexivity.
Qed.

Lemma nth_poke (cells : list Z) : forall (i j : nat) (v : Z),
  (i < length cells)%nat ->
  nth j (poke i v cells) 0 = if (j =? i)%nat then v else nth j cells 0.
Proof.
  unfold poke.
  induction cells as [| x cells IH]; intros i j v Hi; [cbn in Hi; lia |].
  destruct i as [| i], j as [| j]; cbn [firstn skipn app nth Nat.eqb]; try reflexivity.
  apply IH. cbn in Hi. lia.
Qed.

(** X13.  After a save, a record in which one of the fifteen bytes has been
    replaced by a different byte fails the integrity check of
    [readFromEEPROM], the checksum byte included. *)
Theorem corrupted_record_is_rejected (s s' : State) (a v : Z) :
  settings_in_range (settings s) ->
  0 <= a < 15 ->
  is_u8 v ->
  v <> eeprom (writeToEEPROM s) a ->
  eeprom s' = corrupt_cell a v (eeprom (writeToEEPROM s)) ->
  fst (readFromEEPROM s') = false /\ stored_record_valid (eeprom s') = false.
Proof.
  intros Hrange Ha Hv Hne Hrom.
  set (saved := settings (writeToEEPROM s)) in *.
  pose proof (saved_image s) as Himage. fold saved in Himage.
  pose proof (saved_checksum s) as Hcrc. fold saved in Hcrc.
  pose proof (settings_bytes_are_bytes saved (saved_in_range s Hrange)) as Hbytes.
  rewrite (read_block_cell (eeprom (writeToEEPROM s)) a Ha), Himage in Hne.
  assert (Hlen : length (settings_bytes saved) = 15%nat).
  { rewrite SettingsStoreFacts.settings_bytes_cells. reflexivity. }
  assert (Hlast : nth 14 (settings_bytes saved) 0 = checksum saved).
  { rewrite SettingsStoreFacts.settings_bytes_cells. reflexivity. }
  assert (Hfail : (crc8block (poke (Z.to_nat a) v (settings_bytes saved))
                     (sizeof_Settings - 1) =?
                   nth 14 (poke (Z.to_nat a) v (settings_bytes saved)) 0) = false).
  { assert (Hold : is_u8 (nth (Z.to_nat a) (settings_bytes saved) 0)).
    { apply Forall_nth; [exact Hbytes | lia]. }
    destruct (IntegrityFacts.checksum_detects_single_byte_on
                (settings_bytes saved) (Z.to_nat a) v (sizeof_Settings - 1)
                ltac:(lia) Hold Hv Hne) as [Hin Hout].
    apply Z.eqb_neq. rewrite nth_poke by lia.
    destruct (Nat.eqb_spec 14 (Z.to_nat a)) as [Hlastcell | Hlow].
    - rewrite Hout by (unfold sizeof_Settings; lia). rewrite Hcrc.
      rewrite <- Hlastcell, Hlast in Hne.
      intros Heq. apply Hne. symmetry. exact Heq.
    - rewrite Hlast, <- Hcrc. apply Hin.
      unfold sizeof_Settings. lia. }
  assert (Hread : eeprom_read_block (eeprom s') EEPROM_ADDRESS_SHIFT sizeof_Settings =
                  poke (Z.to_nat a) v (settings_bytes saved)).
  { rewrite Hrom, corrupted_image by exact Ha. rewrite Himage. reflexivity. }
  split.
  - unfold readFromEEPROM. cbn [fst]. rewrite Hread.
    cbn [settings with_settings checksum settings_of_bytes]. exact Hfail.
  - unfold stored_record_valid. rewrite Hread. exact Hfail.
Qed.

(** The reset settings saved, then the low byte of the step changed from
    0xE8 to 0xE9 (one bit flipped). *)
Lemma corrupted_record_is_rejected_witness :
  let s := setup false (initial_state false erased_eeprom) in
  let s' := initial_state true (corrupt_cell 8 233 (eeprom (writeToEEPROM s))) in
  fst (readFromEEPROM s') = false /\ stored_record_valid (eeprom s') = false.
Proof.
  apply (corrupted_record_is_rejected
           (setup false (initial_state false erased_eeprom))
           (initial_state true
              (corrupt_cell 8 233
                 (eeprom (writeToEEPROM (setup false (initial_state false erased_eeprom))))))
           8 233).
  - unfold settings_in_range, is_u32, is_u8. vm_compute.
    repeat split; discriminate.
  - lia.
  - unfold is_u8. lia.
  - vm_compute. discriminate.
  - reflexivity.
Defined.

End PowerCycleFacts.
